(** * VpaidCallbackAd: the VPAID callback test ad

    A shallow embedding of [src/VpaidCallbackAd.js].  The unit is a JavaScript
    object with four fields ([slot_], [videoSlot_], [eventCallbacks_],
    [attributes_]); its methods mutate those fields, read and write elements
    of the page through [document.getElementById], and call the functions the
    host registered.  Every method is embedded as a computation over a
    [World]: the unit, the page, and the list of host functions called so far.
    A JavaScript exception leaves the mutations made before it in place, so a
    computation returns its outcome together with the world it stopped in.

    Modelling boundaries, fixed here once:
    - JavaScript numbers are integers ([Z]); the unit only stores and prints
      them.
    - A host function is an opaque recorder: calling it appends one entry to
      [calls] and returns; it neither throws nor calls back into the unit.
    - Event names are ordinary property names (not names every object
      inherits, such as [toString]), so [name in eventCallbacks_] is a test
      on the stored entries.
    - The page is what [getElementById] finds outside the slot's own subtree;
      [logPercentVisible_], which reads layout geometry and writes only the
      two diagnostic elements, is outside the embedding. *)

From Stdlib Require Import ZArith Ascii String.
From stdpp Require Import base gmap strings list pretty.

Open Scope string_scope.
Open Scope list_scope.

(** ** JavaScript values *)

(** A function supplied by the host: an identity and its source text (what
    string concatenation prints). *)
Record Fn := { fn_id : nat; fn_source : string }.

Inductive JsVal :=
| JUndefined
| JNull
| JBool (b : bool)
| JNum (n : Z)
| JStr (s : string)
| JObj (ref : nat)
| JFun (f : Fn).

(** [ToString], as applied by ["..." + v]. *)
Definition js_to_string (v : JsVal) : string :=
  match v with
  | JUndefined => "undefined"
  | JNull => "null"
  | JBool true => "true"
  | JBool false => "false"
  | JNum n => pretty n
  | JStr s => s
  | JObj _ => "[object Object]"
  | JFun f => fn_source f
  end.

(** [ToBoolean], as applied by [if (v)]. *)
Definition js_truthy (v : JsVal) : bool :=
  match v with
  | JUndefined | JNull => false
  | JBool b => b
  | JNum n => negb (n =? 0)%Z
  | JStr s => negb (String.eqb s "")
  | JObj _ | JFun _ => true
  end.

(** What a DOM string attribute holds after [el.textContent = v]: [null] and
    [undefined] become the empty string. *)
Definition dom_string (v : JsVal) : string :=
  match v with
  | JUndefined | JNull => ""
  | _ => js_to_string v
  end.

(** An entry of [eventCallbacks_]: the bound function stored by [subscribe],
    or the [null] stored by [unsubscribe]. *)
Inductive Callback :=
| CbNull
| CbBound (f : Fn) (this : JsVal).

(** One call of a host function: the function, its [this], its arguments. *)
Record Invocation := Invoke { inv_fn : Fn; inv_this : JsVal; inv_args : list JsVal }.

(** The exceptions the unit meets: its own dereference of [null] or
    [undefined] and call of a non-function, a cross-origin access, and the
    DOM refusing to insert a node. *)
Inductive JsError := TypeError | SecurityError | HierarchyRequestError.

(** ** The page *)

(** The methods of the unit that it registers as DOM listeners. *)
Inductive Listener := eventSelected_L | triggerEvent_L | logPercentVisible_L.

Record Element := {
  tagName : string;
  innerHTML : string;
  value : string;
  textContent : string;
  display : string;                       (* style.display *)
  listeners : list (string * Listener)
}.

(** [window.parent]: the window itself, a same-origin frame parent with its
    own document, or a cross-origin parent whose every access throws. *)
Inductive ParentWindow :=
| ParentSelf
| ParentFriendly (doc : gmap string Element)
| ParentCrossOrigin.

Record Page := {
  document : gmap string Element;          (* document.getElementById *)
  parent : ParentWindow;
  body : option (list string);             (* document.body: tags appended to it *)
  documentElement : bool;                  (* the document has a root element *)
  scroll_listeners : list Listener         (* on window.parent *)
}.

Definition upper_ascii (c : ascii) : ascii :=
  let n := nat_of_ascii c in
  if (97 <=? n)%nat && (n <=? 122)%nat then ascii_of_nat (n - 32) else c.

Fixpoint upper (s : string) : string :=
  match s with
  | EmptyString => EmptyString
  | String c s' => String (upper_ascii c) (upper s')
  end.

(** [document.createElement(tag)]: an HTML element reports its tag name in
    upper case. *)
Definition createElement (tag : string) : Element :=
  {| tagName := upper tag; innerHTML := ""; value := ""; textContent := "";
     display := ""; listeners := [] |}.

Definition set_innerHTML (s : string) (e : Element) : Element :=
  {| tagName := tagName e; innerHTML := s; value := value e;
     textContent := textContent e; display := display e;
     listeners := listeners e |}.

Definition set_value (s : string) (e : Element) : Element :=
  {| tagName := tagName e; innerHTML := innerHTML e; value := s;
     textContent := textContent e; display := display e;
     listeners := listeners e |}.

Definition set_textContent (s : string) (e : Element) : Element :=
  {| tagName := tagName e; innerHTML := innerHTML e; value := value e;
     textContent := s; display := display e; listeners := listeners e |}.

Definition set_display (s : string) (e : Element) : Element :=
  {| tagName := tagName e; innerHTML := innerHTML e; value := value e;
     textContent := textContent e; display := s; listeners := listeners e |}.

Definition addEventListener (type : string) (l : Listener) (e : Element) : Element :=
  {| tagName := tagName e; innerHTML := innerHTML e; value := value e;
     textContent := textContent e; display := display e;
     listeners := listeners e ++ [(type, l)] |}.

Definition with_body (children : list string) (p : Page) : Page :=
  {| document := document p; parent := parent p; body := Some children;
     documentElement := documentElement p;
     scroll_listeners := scroll_listeners p |}.

(** A reference to an element found by [getElement_]: in the unit's own
    document or in the parent's. *)
Inductive ElemRef := InDocument (id : string) | InParent (id : string).

Definition page_lookup (r : ElemRef) (p : Page) : option Element :=
  match r with
  | InDocument id => document p !! id
  | InParent id =>
      match parent p with
      | ParentFriendly d => d !! id
      | _ => None
      end
  end.

Definition page_update (r : ElemRef) (f : Element → Element) (p : Page) : Page :=
  match r with
  | InDocument id =>
      {| document := alter f id (document p); parent := parent p;
         body := body p; documentElement := documentElement p;
         scroll_listeners := scroll_listeners p |}
  | InParent id =>
      match parent p with
      | ParentFriendly d =>
          {| document := document p; parent := ParentFriendly (alter f id d);
             body := body p; documentElement := documentElement p;
             scroll_listeners := scroll_listeners p |}
      | _ => p
      end
  end.

(** ** The unit *)

(** [attributes_] is enumerated by [for (key in ...)], so it keeps its
    properties in insertion order. *)
Definition Attributes := list (string * JsVal).

Fixpoint attr_get (key : string) (o : Attributes) : option JsVal :=
  match o with
  | [] => None
  | (k, v) :: o' => if String.eqb k key then Some v else attr_get key o'
  end.

(** [o[key] = v]: overwrite in place, or append a new property. *)
Fixpoint attr_set (key : string) (v : JsVal) (o : Attributes) : Attributes :=
  match o with
  | [] => [(key, v)]
  | (k, x) :: o' =>
      if String.eqb k key then (k, v) :: o' else (k, x) :: attr_set key v o'
  end.

Definition attr_keys (o : Attributes) : list string := o.*1.

(** [o[key]] as an expression: [undefined] when the property is missing. *)
Definition attr_read (key : string) (o : Attributes) : JsVal :=
  default JUndefined (attr_get key o).

Record VpaidAd := {
  slot_ : option Element;
  videoSlot_ : JsVal;
  eventCallbacks_ : gmap string Callback;
  attributes_ : Attributes
}.

(** [new VpaidAd()] *)
Definition new_VpaidAd : VpaidAd :=
  {| slot_ := None;
     videoSlot_ := JNull;
     eventCallbacks_ := ∅;
     attributes_ :=
       [ ("companions", JStr "");
         ("desiredBitrate", JNum 256);
         ("duration", JNum 30);
         ("expanded", JBool false);
         ("height", JNum 0);
         ("icons", JStr "");
         ("linear", JBool true);
         ("remainingTime", JNum 10);
         ("skippableState", JBool false);
         ("viewMode", JStr "normal");
         ("width", JNum 0);
         ("volume", JNum 50) ] |}.

Definition HTML_TEMPLATE : string := "<div>Ravi Kant</div>".

(** [getVPAIDAd()] *)
Definition getVPAIDAd : VpaidAd := new_VpaidAd.

Definition with_slot (s : option Element) (a : VpaidAd) : VpaidAd :=
  {| slot_ := s; videoSlot_ := videoSlot_ a;
     eventCallbacks_ := eventCallbacks_ a; attributes_ := attributes_ a |}.

Definition with_videoSlot (v : JsVal) (a : VpaidAd) : VpaidAd :=
  {| slot_ := slot_ a; videoSlot_ := v;
     eventCallbacks_ := eventCallbacks_ a; attributes_ := attributes_ a |}.

Definition with_callback (name : string) (c : Callback) (a : VpaidAd) : VpaidAd :=
  {| slot_ := slot_ a; videoSlot_ := videoSlot_ a;
     eventCallbacks_ := <[name := c]> (eventCallbacks_ a);
     attributes_ := attributes_ a |}.

Definition with_attribute (key : string) (v : JsVal) (a : VpaidAd) : VpaidAd :=
  {| slot_ := slot_ a; videoSlot_ := videoSlot_ a;
     eventCallbacks_ := eventCallbacks_ a;
     attributes_ := attr_set key v (attributes_ a) |}.

(** ** Computations *)

Record World := { ad : VpaidAd; page : Page; calls : list Invocation }.

Inductive Outcome (A : Type) :=
| Returned (a : A)
| Thrown (e : JsError).
Arguments Returned {A} a.
Arguments Thrown {A} e.

Definition M (A : Type) : Type := World → Outcome A * World.

Definition ret {A} (a : A) : M A := λ w, (Returned a, w).

Definition bind {A B} (m : M A) (k : A → M B) : M B :=
  λ w, match m w with
       | (Returned a, w') => k a w'
       | (Thrown e, w') => (Thrown e, w')
       end.

Definition throw {A} (e : JsError) : M A := λ w, (Thrown e, w).

(** [try { m } catch (e) { h }] *)
Definition try_catch {A} (m : M A) (h : M A) : M A :=
  λ w, match m w with
       | (Returned a, w') => (Returned a, w')
       | (Thrown _, w') => h w'
       end.

Declare Scope js_scope.
Delimit Scope js_scope with js.
Notation "x <- m ;; k" := (bind m (λ x, k))
  (at level 100, m at next level, k at level 200, right associativity) : js_scope.
Notation "m ;; k" := (bind m (λ _, k))
  (at level 100, k at level 200, right associativity) : js_scope.
Open Scope js_scope.

Definition get_ad : M VpaidAd := λ w, (Returned (ad w), w).

Definition modify_ad (f : VpaidAd → VpaidAd) : M unit :=
  λ w, (Returned tt, {| ad := f (ad w); page := page w; calls := calls w |}).

Definition get_page : M Page := λ w, (Returned (page w), w).

Definition modify_page (f : Page → Page) : M unit :=
  λ w, (Returned tt, {| ad := ad w; page := f (page w); calls := calls w |}).

(** Calling a host function. *)
Definition invoke (f : Fn) (this : JsVal) (args : list JsVal) : M unit :=
  λ w, (Returned tt,
        {| ad := ad w; page := page w;
           calls := calls w ++ [Invoke f this args] |}).

Definition outcome {A} (m : M A) (w : World) : Outcome A := (m w).1.
Definition exec {A} (m : M A) (w : World) : World := (m w).2.

(** [name in this.eventCallbacks_] *)
Definition subscribed_in (name : string) : M bool :=
  a <- get_ad ;;
  ret (bool_decide (is_Some (eventCallbacks_ a !! name))).

(** [this.eventCallbacks_[name](args)]: a [TypeError] unless the entry is a
    function. *)
Definition call_callback (name : string) (args : list JsVal) : M unit :=
  a <- get_ad ;;
  match eventCallbacks_ a !! name with
  | Some (CbBound f this) => invoke f this args
  | Some CbNull | None => throw TypeError
  end.

(** [el.field = ...] and [el.addEventListener(...)] on the result of
    [getElement_]: a [TypeError] on [null]. *)
Definition on_element (r : option ElemRef) (f : Element → Element) : M unit :=
  match r with
  | Some r => modify_page (page_update r f)
  | None => throw TypeError
  end.

(** [el.value] on the result of [getElement_]: a [TypeError] on [null]. *)
Definition value_of (r : option ElemRef) : M string :=
  match r with
  | Some r =>
      p <- get_page ;;
      ret (default "" (value <$> page_lookup r p))
  | None => throw TypeError
  end.

(** The object passed as [environmentVars], as [initAd] reads it: a
    missing property reads as [null] or [undefined]. *)
Record EnvironmentVars := { slot : option Element; videoSlot : JsVal }.

(** [environmentVars.field], where [environmentVars] is an argument the
    host may have left out ([None]: [undefined] or [null]): a [TypeError]
    then. *)
Definition property_of {A} (field : EnvironmentVars → A)
    (environmentVars : option EnvironmentVars) : M A :=
  match environmentVars with
  | Some o => ret (field o)
  | None => throw TypeError
  end.

(** ** The methods, in source order *)

Definition document_getElementById (key : string) : M (option ElemRef) :=
  p <- get_page ;;
  ret (match document p !! key with
       | Some _ => Some (InDocument key)
       | None => None
       end).

(** [parent.document.getElementById(key)] *)
Definition parent_getElementById (key : string) : M (option ElemRef) :=
  p <- get_page ;;
  match parent p with
  | ParentSelf => document_getElementById key
  | ParentFriendly d =>
      ret (match d !! key with
           | Some _ => Some (InParent key)
           | None => None
           end)
  | ParentCrossOrigin => throw SecurityError
  end.

(** [window.parent.addEventListener("scroll", l)] *)
Definition parent_addEventListener (l : Listener) : M unit :=
  p <- get_page ;;
  match parent p with
  | ParentCrossOrigin => throw SecurityError
  | _ =>
      modify_page (λ p,
        {| document := document p; parent := parent p; body := body p;
           documentElement := documentElement p;
           scroll_listeners := scroll_listeners p ++ [l] |})
  end.

Definition getElement_ (key : string) : M (option ElemRef) :=
  element <- document_getElementById key ;;
  match element with
  | Some r => ret (Some r)
  | None => try_catch (parent_getElementById key) (ret None)
  end.

Definition log (message : string) : M unit :=
  logTextArea <- getElement_ "lastVpaidEvent" ;;
  match logTextArea with
  | Some r => modify_page (page_update r (set_value message))
  | None => ret tt
  end.

(** [document.body = document.createElement("body")]: the new body replaces
    the old one or is appended to the root element; a document without a
    root element refuses it. *)
Definition document_set_body : M unit :=
  p <- get_page ;;
  match body p with
  | Some _ => modify_page (with_body [])
  | None =>
      if documentElement p then modify_page (with_body [])
      else throw HierarchyRequestError
  end.

Definition renderSlot_ : M unit :=
  a <- get_ad ;;
  let slotExists :=
    match slot_ a with
    | Some e => String.eqb (tagName e) "DIV"
    | None => false
    end in
  (if negb slotExists then
     modify_ad (with_slot (Some (createElement "div"))) ;;
     p <- get_page ;;
     (match body p with
      | None => document_set_body
      | Some _ => ret tt
      end) ;;
     modify_page (λ p,
       {| document := document p; parent := parent p;
          body := (λ children, children ++ [tagName (createElement "div")]) <$> body p;
          documentElement := documentElement p;
          scroll_listeners := scroll_listeners p |})
   else ret tt) ;;
  modify_ad (λ a, with_slot (set_innerHTML HTML_TEMPLATE <$> slot_ a) a).

Definition addButtonListeners_ : M unit :=
  eventSelect <- getElement_ "eventSelect" ;;
  on_element eventSelect (addEventListener "change" eventSelected_L) ;;
  triggerEvent <- getElement_ "triggerEvent" ;;
  on_element triggerEvent (addEventListener "click" triggerEvent_L).

Fixpoint fillProperties_loop (keys : list string) : M unit :=
  match keys with
  | [] => ret tt
  | key :: keys' =>
      span <- getElement_ key ;;
      a <- get_ad ;;
      on_element span (set_textContent (dom_string (attr_read key (attributes_ a)))) ;;
      fillProperties_loop keys'
  end.

Definition fillProperties_ : M unit :=
  a <- get_ad ;;
  fillProperties_loop (attr_keys (attributes_ a)).

Definition setupScrollListener_ : M unit :=
  try_catch (parent_addEventListener logPercentVisible_L) (ret tt).

Definition initAd (width height viewMode desiredBitrate creativeData : JsVal)
    (environmentVars : option EnvironmentVars) : M unit :=
  s <- property_of slot environmentVars ;;
  modify_ad (with_slot s) ;;
  v <- property_of videoSlot environmentVars ;;
  modify_ad (with_videoSlot v) ;;
  modify_ad (with_attribute "width" width) ;;
  modify_ad (with_attribute "height" height) ;;
  modify_ad (with_attribute "viewMode" viewMode) ;;
  modify_ad (with_attribute "desiredBitrate" desiredBitrate) ;;
  log ("initAd " +:+ js_to_string width +:+ "x" +:+ js_to_string height +:+ " "
       +:+ js_to_string viewMode +:+ " " +:+ js_to_string desiredBitrate) ;;
  renderSlot_ ;;
  addButtonListeners_ ;;
  fillProperties_ ;;
  call_callback "AdLoaded" [] ;;
  setupScrollListener_.

Definition isEventSubscribed_ (eventName : string) : M bool :=
  a <- get_ad ;;
  ret (match eventCallbacks_ a !! eventName with
       | Some (CbBound _ _) => true
       | _ => false
       end).

Definition adClickThruHandler_ : M unit :=
  subscribed <- isEventSubscribed_ "AdClickThru" ;;
  if negb subscribed then
    log "Error: AdClickThru function callback not subscribed."
  else
    e1 <- getElement_ "clickThruUrl" ;;
    clickThruUrl <- value_of e1 ;;
    e2 <- getElement_ "clickThruId" ;;
    clickThruId <- value_of e2 ;;
    e3 <- getElement_ "clickThruPlayerHandels" ;;
    clickThruPlayerHandles <- value_of e3 ;;
    log ("AdClickThu(" +:+ clickThruUrl +:+ "," +:+ clickThruId +:+ ","
         +:+ clickThruPlayerHandles +:+ ")") ;;
    call_callback "AdClickThru"
      [JStr clickThruUrl; JStr clickThruId; JStr clickThruPlayerHandles].

Definition adErrorHandler_ : M unit :=
  subscribed <- isEventSubscribed_ "AdError" ;;
  if negb subscribed then
    log "AdError function callback not subscribed."
  else
    e <- getElement_ "adErrorMsg" ;;
    adError <- value_of e ;;
    log ("adError(" +:+ adError +:+ ")") ;;
    call_callback "AdError" [JStr adError].

Definition adLogHandler_ : M unit :=
  subscribed <- isEventSubscribed_ "AdLog" ;;
  if negb subscribed then
    log "Error: AdLog function callback not subscribed."
  else
    e <- getElement_ "adLogMsg" ;;
    adLogMsg <- value_of e ;;
    log ("adLog(" +:+ adLogMsg +:+ ")") ;;
    call_callback "AdLog" [JStr adLogMsg].

Definition adInteractionHandler_ : M unit :=
  subscribed <- isEventSubscribed_ "AdInteraction" ;;
  if negb subscribed then
    log "Error: AdInteraction function callback not subscribed."
  else
    e <- getElement_ "adInteractionId" ;;
    adInteraction <- value_of e ;;
    log ("adLog(" +:+ adInteraction +:+ ")") ;;
    call_callback "AdInteraction" [JStr adInteraction].

Definition triggerEvent_ : M unit :=
  eventSelect <- getElement_ "eventSelect" ;;
  value <- value_of eventSelect ;;
  if String.eqb value "AdClickThru" then adClickThruHandler_
  else if String.eqb value "AdError" then adErrorHandler_
  else if String.eqb value "AdLog" then adLogHandler_
  else if String.eqb value "AdInteraction" then adInteractionHandler_
  else
    registered <- subscribed_in value ;;
    if registered then call_callback value [] else ret tt.

Definition handshakeVersion (version : JsVal) : M string :=
  ret "2.0".

Definition startAd : M unit :=
  log "Starting ad" ;;
  registered <- subscribed_in "AdStart" ;;
  if registered then call_callback "AdStarted" [] else ret tt.

Definition stopAd : M unit :=
  log "Stopping ad" ;;
  registered <- subscribed_in "AdStop" ;;
  if registered then call_callback "AdStopped" [] else ret tt.

Definition setAdVolume (value : JsVal) : M unit :=
  modify_ad (with_attribute "volume" value) ;;
  log ("setAdVolume " +:+ js_to_string value) ;;
  registered <- subscribed_in "AdVolumeChange" ;;
  if registered then call_callback "AdVolumeChange" [] else ret tt.

Definition getAdVolume : M JsVal :=
  log "getAdVolume" ;;
  a <- get_ad ;;
  ret (attr_read "volume" (attributes_ a)).

Definition resizeAd (width height viewMode : JsVal) : M unit :=
  log ("resizeAd " +:+ js_to_string width +:+ "x" +:+ js_to_string height +:+ " "
       +:+ js_to_string viewMode) ;;
  modify_ad (with_attribute "width" width) ;;
  modify_ad (with_attribute "height" height) ;;
  modify_ad (with_attribute "viewMode" viewMode) ;;
  registered <- subscribed_in "AdSizeChange" ;;
  if registered then call_callback "AdSizeChange" [] else ret tt.

Definition pauseAd : M unit :=
  log "pauseAd" ;;
  registered <- subscribed_in "AdPaused" ;;
  if registered then call_callback "AdPaused" [] else ret tt.

Definition resumeAd : M unit :=
  log "resumeAd" ;;
  registered <- subscribed_in "AdResumed" ;;
  if registered then call_callback "AdResumed" [] else ret tt.

Definition expandAd : M unit :=
  log "expandAd" ;;
  modify_ad (with_attribute "expanded" (JBool true)) ;;
  registered <- subscribed_in "AdExpanded" ;;
  if registered then call_callback "AdExpanded" [] else ret tt.

Definition getAdExpanded : M JsVal :=
  log "getAdExpanded" ;;
  a <- get_ad ;;
  ret (attr_read "expanded" (attributes_ a)).

Definition getAdSkippableState : M JsVal :=
  log "getAdSkippableState" ;;
  a <- get_ad ;;
  ret (attr_read "skippableState" (attributes_ a)).

Definition collapseAd : M unit :=
  log "collapseAd" ;;
  modify_ad (with_attribute "expanded" (JBool false)).

Definition skipAd : M unit :=
  log "skipAd" ;;
  a <- get_ad ;;
  let skippableState := attr_read "skippableState" (attributes_ a) in
  if js_truthy skippableState then
    registered <- subscribed_in "AdSkipped" ;;
    if registered then call_callback "AdSkipped" []
    else log "Error: Invalid ad skip request."
  else ret tt.

(** [aCallback.bind(aContext)]: a [TypeError] unless [aCallback] is a
    function. *)
Definition js_bind (aCallback aContext : JsVal) : M Callback :=
  match aCallback with
  | JFun f => ret (CbBound f aContext)
  | _ => throw TypeError
  end.

Definition subscribe (aCallback : JsVal) (eventName : string) (aContext : JsVal)
    : M unit :=
  log ("Subscribe " +:+ js_to_string aCallback) ;;
  callBack <- js_bind aCallback aContext ;;
  modify_ad (with_callback eventName callBack).

Definition unsubscribe (eventName : string) : M unit :=
  log ("unsubscribe " +:+ eventName) ;;
  modify_ad (with_callback eventName CbNull).

Definition getAdWidth : M JsVal :=
  a <- get_ad ;; ret (attr_read "width" (attributes_ a)).

Definition getAdHeight : M JsVal :=
  a <- get_ad ;; ret (attr_read "height" (attributes_ a)).

Definition getAdRemainingTime : M JsVal :=
  a <- get_ad ;; ret (attr_read "remainingTime" (attributes_ a)).

Definition getAdDuration : M JsVal :=
  a <- get_ad ;; ret (attr_read "duration" (attributes_ a)).

Definition getAdCompanions : M JsVal :=
  a <- get_ad ;; ret (attr_read "companions" (attributes_ a)).

Definition getAdIcons : M JsVal :=
  a <- get_ad ;; ret (attr_read "icons" (attributes_ a)).

Definition getAdLinear : M JsVal :=
  a <- get_ad ;; ret (attr_read "linear" (attributes_ a)).

Definition eventSelected_ : M unit :=
  clickThruParams <- getElement_ "AdClickThruOptions" ;;
  adErrorParams <- getElement_ "AdErrorOptions" ;;
  adLogParams <- getElement_ "AdLogOptions" ;;
  adInteractionParams <- getElement_ "AdInteractionOptions" ;;
  on_element clickThruParams (set_display "none") ;;
  on_element adErrorParams (set_display "none") ;;
  on_element adLogParams (set_display "none") ;;
  on_element adInteractionParams (set_display "none") ;;
  eventSelect <- getElement_ "eventSelect" ;;
  value <- value_of eventSelect ;;
  if String.eqb value "AdClickThru" then
    on_element clickThruParams (set_display "inline")
  else if String.eqb value "AdError" then
    on_element adErrorParams (set_display "inline")
  else if String.eqb value "AdLog" then
    on_element adLogParams (set_display "inline")
  else if String.eqb value "AdInteraction" then
    on_element adInteractionParams (set_display "inline")
  else ret tt.

(** ** Calls on the unit *)

(** The calls a host can make (the methods without a trailing underscore)
    and the two listeners the operator fires through the page. *)
Inductive Op :=
| InitAd (width height viewMode desiredBitrate creativeData : JsVal)
    (environmentVars : option EnvironmentVars)
| HandshakeVersion (version : JsVal)
| StartAd
| StopAd
| SetAdVolume (value : JsVal)
| GetAdVolume
| ResizeAd (width height viewMode : JsVal)
| PauseAd
| ResumeAd
| ExpandAd
| GetAdExpanded
| GetAdSkippableState
| CollapseAd
| SkipAd
| Subscribe (aCallback : JsVal) (eventName : string) (aContext : JsVal)
| Unsubscribe (eventName : string)
| GetAdWidth
| GetAdHeight
| GetAdRemainingTime
| GetAdDuration
| GetAdCompanions
| GetAdIcons
| GetAdLinear
| Log (message : string)
| TriggerEvent_
| EventSelected_.

(** A method without a [return] yields [undefined]. *)
Definition void (m : M unit) : M JsVal := m ;; ret JUndefined.

Definition perform (op : Op) : M JsVal :=
  match op with
  | InitAd w h vm br cd env => void (initAd w h vm br cd env)
  | HandshakeVersion v => s <- handshakeVersion v ;; ret (JStr s)
  | StartAd => void startAd
  | StopAd => void stopAd
  | SetAdVolume v => void (setAdVolume v)
  | GetAdVolume => getAdVolume
  | ResizeAd w h vm => void (resizeAd w h vm)
  | PauseAd => void pauseAd
  | ResumeAd => void resumeAd
  | ExpandAd => void expandAd
  | GetAdExpanded => getAdExpanded
  | GetAdSkippableState => getAdSkippableState
  | CollapseAd => void collapseAd
  | SkipAd => void skipAd
  | Subscribe cb name ctx => void (subscribe cb name ctx)
  | Unsubscribe name => void (unsubscribe name)
  | GetAdWidth => getAdWidth
  | GetAdHeight => getAdHeight
  | GetAdRemainingTime => getAdRemainingTime
  | GetAdDuration => getAdDuration
  | GetAdCompanions => getAdCompanions
  | GetAdIcons => getAdIcons
  | GetAdLinear => getAdLinear
  | Log message => void (log message)
  | TriggerEvent_ => void triggerEvent_
  | EventSelected_ => void eventSelected_
  end.

(** A fresh unit on a page, before any call. *)
Definition fresh (p : Page) : World :=
  {| ad := getVPAIDAd; page := p; calls := [] |}.

(** The worlds a unit can be in: it starts fresh, the host and the operator
    call it, and between calls the page may change in any way. *)
Inductive reachable : World → Prop :=
| reachable_fresh p : reachable (fresh p)
| reachable_call w op : reachable w → reachable (exec (perform op) w)
| reachable_page w p :
    reachable w → reachable {| ad := ad w; page := p; calls := calls w |}.

(** Running a list of calls, whatever each one's outcome. *)
Fixpoint run (ops : list Op) (w : World) : World :=
  match ops with
  | [] => w
  | op :: ops' => run ops' (exec (perform op) w)
  end.

(** The keys of [attributes_], in construction order. *)
Definition attribute_keys : list string :=
  [ "companions"; "desiredBitrate"; "duration"; "expanded"; "height"; "icons";
    "linear"; "remainingTime"; "skippableState"; "viewMode"; "width"; "volume" ].

(** *** Two pages to run the unit on *)

(** A page with a body and nothing else: what the unit finds when the host
    supplies no controls, since [HTML_TEMPLATE] has none. *)
Definition blank_page : Page :=
  {| document := ∅; parent := ParentSelf; body := Some [];
     documentElement := true; scroll_listeners := [] |}.

Definition control_ids : list string :=
  [ "lastVpaidEvent"; "eventSelect"; "triggerEvent"; "clickThruUrl";
    "clickThruId"; "clickThruPlayerHandels"; "adErrorMsg"; "adLogMsg";
    "adInteractionId"; "AdClickThruOptions"; "AdErrorOptions"; "AdLogOptions";
    "AdInteractionOptions"; "percentVisible" ] ++ attribute_keys.

(** A page whose document has an element for every id the unit looks up. *)
Definition control_page : Page :=
  {| document := list_to_map ((λ id, (id, createElement "span")) <$> control_ids);
     parent := ParentSelf; body := Some []; documentElement := true;
     scroll_listeners := [] |}.

Definition recorder : Fn :=
  {| fn_id := 1; fn_source := "function recorder() {}" |}.

Definition scenario_env : EnvironmentVars := {| slot := None; videoSlot := JNull |}.

(** * Vocabulary of the properties *)

(** ** The page, as the unit sees it *)

(** What [getElement_] returns, as a function of the page. *)
Definition resolve (key : string) (p : Page) : option ElemRef :=
  match document p !! key with
  | Some _ => Some (InDocument key)
  | None =>
      match parent p with
      | ParentFriendly d =>
          match d !! key with
          | Some _ => Some (InParent key)
          | None => None
          end
      | _ => None
      end
  end.

(** The page after [log(message)]. *)
Definition log_page (message : string) (p : Page) : Page :=
  match resolve "lastVpaidEvent" p with
  | Some r => page_update r (set_value message) p
  | None => p
  end.

Definition logged (message : string) (w : World) : World :=
  {| ad := ad w; page := log_page message (page w); calls := calls w |}.

(** The world [initAd] is in when it calls [renderSlot_]: the two slots and
    the four attributes are stored and the log line is written. *)
Definition initAd_stored (width height viewMode desiredBitrate : JsVal)
    (o : EnvironmentVars) (w : World) : World :=
  logged ("initAd " +:+ js_to_string width +:+ "x" +:+ js_to_string height
          +:+ " " +:+ js_to_string viewMode +:+ " "
          +:+ js_to_string desiredBitrate)
    {| ad := with_attribute "desiredBitrate" desiredBitrate
               (with_attribute "viewMode" viewMode
                  (with_attribute "height" height
                     (with_attribute "width" width
                        (with_videoSlot (videoSlot o)
                           (with_slot (slot o) (ad w))))));
       page := page w; calls := calls w |}.

(** [this.slot_ && this.slot_.tagName === "DIV"], by the slot. *)
Definition is_div (s : option Element) : bool :=
  match s with
  | Some e => String.eqb (tagName e) "DIV"
  | None => false
  end.

(** A document with neither a body nor a root element. *)
Definition rootless (p : Page) : bool :=
  match body p with
  | Some _ => false
  | None => negb (documentElement p)
  end.

(** [renderSlot_] has to create the body and the document refuses it: the
    slot is not a [DIV] and the document is rootless. *)
Definition body_refused (s : option Element) (p : Page) : bool :=
  negb (is_div s) && rootless p.

(** [initAd] gets as far as [renderSlot_] and the document refuses the
    body. *)
Definition initAd_refused (environmentVars : option EnvironmentVars) (p : Page)
    : bool :=
  match environmentVars with
  | Some o => body_refused (slot o) p
  | None => false
  end.

(** [getElement_(key)] finds an element. *)
Definition finds (key : string) (w : World) : Prop :=
  ∃ r, outcome (getElement_ key) w = Returned (Some r).

(** The ids [initAd] dereferences: the two controls and one element per
    attribute. *)
Definition initAd_ids : list string :=
  "eventSelect" :: "triggerEvent" :: attribute_keys.

(** ** Properties of computations *)

(** The attributes some method writes. *)
Definition written_keys : list string :=
  [ "width"; "height"; "viewMode"; "desiredBitrate"; "volume"; "expanded" ].

(** [m] keeps [P] true of the unit and of the calls it has made, whether
    it returns or throws. *)
Definition preserves (P : VpaidAd → list Invocation → Prop) {A} (m : M A) : Prop :=
  ∀ w, P (ad w) (calls w) → P (ad (exec m w)) (calls (exec m w)).

(** [m] throws nothing but [TypeError]. *)
Definition only_TypeError {A} (m : M A) : Prop :=
  ∀ w e, outcome m w = Thrown e → e = TypeError.

(** [m] returns, in every world. *)
Definition never_throws {A} (m : M A) : Prop :=
  ∀ w, ∃ a, outcome m w = Returned a.

(** Whenever [P] holds, [m] throws a [TypeError] and [P] still holds. *)
Definition doomed (P : VpaidAd → list Invocation → Prop) {A} (m : M A) : Prop :=
  ∀ w, P (ad w) (calls w) →
    outcome m w = Thrown TypeError ∧ P (ad (exec m w)) (calls (exec m w)).

(** The calls the document refuses: an [initAd] that has to create the body
    of a rootless document. *)
Definition refused (op : Op) (p : Page) : bool :=
  match op with
  | InitAd _ _ _ _ _ environmentVars => initAd_refused environmentVars p
  | _ => false
  end.

(** [w'] differs from [w] at most in the slot and in what the elements of
    the page hold. *)
Record settled (w w' : World) : Prop := {
  settled_callbacks : eventCallbacks_ (ad w') = eventCallbacks_ (ad w);
  settled_attributes : attributes_ (ad w') = attributes_ (ad w);
  settled_calls : calls w' = calls w;
  settled_resolve : ∀ key, resolve key (page w') = resolve key (page w)
}.

(** [m] returns, in a world that differs as [settled] allows. *)
Definition settles (m : M unit) (w : World) : Prop :=
  ∃ w', m w = (Returned tt, w') ∧ settled w w'.

(** ** Worlds and calls of the scenarios *)


(** The unit of the scenario: a recorder subscribed under ["AdLoaded"], on a
    page without controls. *)
Definition subscribed_on_blank_page : World :=
  exec (subscribe (JFun recorder) "AdLoaded" JNull) (fresh blank_page).

(** [initAd(300, 250, "normal", 256, {}, {slot: null, videoSlot: null})] *)
Definition scenario_initAd : M unit :=
  initAd (JNum 300) (JNum 250) (JStr "normal") (JNum 256) (JObj 0)
    (Some scenario_env).

(** The scenario on a page that has the controls. *)
Definition subscribed_on_control_page : World :=
  exec (subscribe (JFun recorder) "AdLoaded" JNull) (fresh control_page).

(** A recorder subscribed under ["AdExpanded"]. *)
Definition expand_listener : World :=
  exec (subscribe (JFun recorder) "AdExpanded" JNull) (fresh control_page).

(** A unit after [resizeAd(640, 360, "fullscreen")]. *)
Definition resized : World :=
  exec (perform (ResizeAd (JNum 640) (JNum 360) (JStr "fullscreen")))
    (fresh blank_page).

(** A recorder subscribed under ["AdSkipped"], then [startAd()]. *)
Definition skip_listener : World :=
  run [Subscribe (JFun recorder) "AdSkipped" JNull; StartAd] (fresh control_page).



(** ** Further vocabulary: elements, invocations, kinds of calls *)

(** The element [getElement_(key)] returns, as it is on the page. *)
Definition element_at (key : string) (p : Page) : option Element :=
  match resolve key p with
  | Some r => page_lookup r p
  | None => None
  end.

(** [m] calls no host function. *)
Definition mute {A} (m : M A) : Prop :=
  ∀ w, calls (exec m w) = calls w.

(** [m] calls no host function and leaves [eventCallbacks_] as it is. *)
Definition quiet {A} (m : M A) : Prop :=
  ∀ w, calls (exec m w) = calls w ∧
       eventCallbacks_ (ad (exec m w)) = eventCallbacks_ (ad w).

(** [m] calls at most one host function, and only one that [eventCallbacks_]
    held, bound to its [this], when [m] started. *)
Definition calls_at_most_one {A} (m : M A) : Prop :=
  ∀ w, calls (exec m w) = calls w ∨
       ∃ name f this args,
         eventCallbacks_ (ad w) !! name = Some (CbBound f this) ∧
         calls (exec m w) = calls w ++ [Invoke f this args].

(** The calls that only read the unit: everything but [initAd], the four
    writers of attributes, [subscribe] and [unsubscribe]. *)
Definition read_only (op : Op) : bool :=
  match op with
  | InitAd _ _ _ _ _ _ | SetAdVolume _ | ResizeAd _ _ _ | ExpandAd | CollapseAd
  | Subscribe _ _ _ | Unsubscribe _ => false
  | _ => true
  end.

(** The calls with no call of a stored entry and no dereference of an
    element: the getters, [handshakeVersion], [collapseAd], [log],
    [unsubscribe], and [subscribe] of a function. *)
Definition cannot_throw (op : Op) : bool :=
  match op with
  | HandshakeVersion _ | GetAdVolume | GetAdExpanded | GetAdSkippableState
  | CollapseAd | Unsubscribe _ | GetAdWidth | GetAdHeight | GetAdRemainingTime
  | GetAdDuration | GetAdCompanions | GetAdIcons | GetAdLinear | Log _ => true
  | Subscribe (JFun _) _ _ => true
  | _ => false
  end.

(** A second host function. *)
Definition recorder2 : Fn :=
  {| fn_id := 2; fn_source := "function recorder2() {}" |}.

(** The option panels of the dropdown, each with the event it belongs to. *)
Definition option_panels : list (string * string) :=
  [ ("AdClickThruOptions", "AdClickThru"); ("AdErrorOptions", "AdError");
    ("AdLogOptions", "AdLog"); ("AdInteractionOptions", "AdInteraction") ].

(** The event a lifecycle call emits under the key it tests. *)
Definition emitted_name (op : Op) : option string :=
  match op with
  | SetAdVolume _ => Some "AdVolumeChange"
  | ResizeAd _ _ _ => Some "AdSizeChange"
  | PauseAd => Some "AdPaused"
  | ResumeAd => Some "AdResumed"
  | ExpandAd => Some "AdExpanded"
  | _ => None
  end.

(** ** Further pages and worlds *)

(** A page inside a same-origin frame: the log sink is in the parent's
    document, an input is in both. *)
Definition framed_page : Page :=
  {| document := {[ "adErrorMsg" := set_value "inner" (createElement "input") ]};
     parent := ParentFriendly
                 (list_to_map
                    [ ("lastVpaidEvent", createElement "textarea");
                      ("adErrorMsg", set_value "outer" (createElement "input")) ]);
     body := Some []; documentElement := true; scroll_listeners := [] |}.

(** The same page inside a cross-origin frame. *)
Definition sandboxed_page : Page :=
  {| document := document framed_page; parent := ParentCrossOrigin;
     body := Some []; documentElement := true; scroll_listeners := [] |}.



(** A page with the [eventSelect] control only. *)
Definition half_wired_page : Page :=
  {| document := {[ "eventSelect" := createElement "select" ]};
     parent := ParentSelf; body := Some []; documentElement := true;
     scroll_listeners := [] |}.

(** A unit after [setAdVolume(80)], on the page with the controls. *)
Definition louder : World :=
  exec (setAdVolume (JNum 80)) (fresh control_page).

(** The operator's page: the controls, with values typed into the inputs
    and an event selected. *)
Definition typed (id text : string) (p : Page) : Page :=
  page_update (InDocument id) (set_value text) p.

Definition operator_page (selected : string) : Page :=
  typed "eventSelect" selected
    (typed "clickThruUrl" "http://example.com"
       (typed "clickThruId" "7"
          (typed "clickThruPlayerHandels" "false"
             (typed "adErrorMsg" "boom"
                (typed "adLogMsg" "note"
                   (typed "adInteractionId" "42" control_page)))))).

(** A recorder subscribed under [name], with [selected] chosen in the
    dropdown. *)
Definition operator_world (name selected : string) : World :=
  exec (subscribe (JFun recorder) name JNull) (fresh (operator_page selected)).

(** A fresh unit inside a cross-origin frame. *)
Definition sandboxed : World := fresh sandboxed_page.

(** A unit after a resize, an expansion and a volume change. *)
Definition busy : World :=
  run [ResizeAd (JNum 640) (JNum 360) (JStr "fullscreen"); ExpandAd;
       SetAdVolume (JNum 0)] (fresh control_page).

(** A unit whose size-change entry was unsubscribed. *)
Definition resize_unsubscribed : World :=
  exec (unsubscribe "AdSizeChange") (fresh control_page).

(** A document that has lost its root element, and a fresh unit on it. *)
Definition rootless_page : Page :=
  {| document := ∅; parent := ParentSelf; body := None;
     documentElement := false; scroll_listeners := [] |}.

Definition uprooted : World := fresh rootless_page.



(** A recorder subscribed under ["AdVolumeChange"]. *)
Definition volume_listener : World :=
  exec (subscribe (JFun recorder) "AdVolumeChange" JNull) (fresh control_page).

(** * Properties *)

(** ** The attribute object *)

Lemma attr_get_set key key' v o :
  attr_get key (attr_set key' v o) =
  if String.eqb key' key then Some v else attr_get key o.
Proof.
  induction o as [|[k x] o IH]; simpl.
  - destruct (String.eqb key' key); reflexivity.
  - destruct (String.eqb k key') eqn:E; simpl.
    + apply String.eqb_eq in E. subst k.
      destruct (String.eqb key' key); reflexivity.
    + rewrite IH. destruct (String.eqb k key) eqn:E'; [|reflexivity].
      apply String.eqb_eq in E'. subst k. rewrite String.eqb_sym, E. reflexivity.
Qed.

Lemma attr_read_set_eq key v o : attr_read key (attr_set key v o) = v.
Proof. unfold attr_read. rewrite attr_get_set, String.eqb_refl. reflexivity. Qed.

Lemma attr_read_set_ne key key' v o :
  String.eqb key' key = false →
  attr_read key (attr_set key' v o) = attr_read key o.
Proof. intros E. unfold attr_read. rewrite attr_get_set, E. reflexivity. Qed.

(** Writing a property the object already has keeps its keys, in order. *)
Lemma attr_keys_set key v o :
  key ∈ attr_keys o → attr_keys (attr_set key v o) = attr_keys o.
Proof.
  unfold attr_keys. induction o as [|[k x] o IH]; simpl; intros Hin.
  - inversion Hin.
  - destruct (String.eqb k key) eqn:E; simpl; [reflexivity|].
    f_equal. apply IH. apply elem_of_cons in Hin as [->|Hin]; [|exact Hin].
    rewrite String.eqb_refl in E. discriminate.
Qed.

(** ** Looking elements up *)

Lemma getElement_spec key w : getElement_ key w = (Returned (resolve key (page w)), w).
Proof.
  unfold getElement_, document_getElementById, parent_getElementById,
    try_catch, resolve, bind, get_page, ret, throw.
  destruct (document (page w) !! key) eqn:E; simpl; [reflexivity|].
  destruct (parent (page w)); simpl; rewrite ?E; reflexivity.
Qed.

Lemma resolve_page_update key r f p :
  resolve key (page_update r f p) = resolve key p.
Proof.
  unfold resolve, page_update.
  destruct r as [id|id]; simpl.
  - rewrite lookup_alter. case_decide; subst; [|reflexivity].
    destruct (document p !! key); reflexivity.
  - destruct (parent p) eqn:E; simpl; rewrite ?E; try reflexivity.
    rewrite lookup_alter. case_decide; subst; [|reflexivity].
    destruct (doc !! key); reflexivity.
Qed.

(** [log] never throws and touches nothing but the page. *)
Lemma log_spec message w : log message w = (Returned tt, logged message w).
Proof.
  unfold log, bind. rewrite getElement_spec. unfold logged, log_page.
  destruct (resolve "lastVpaidEvent" (page w)); [reflexivity|].
  destruct w; reflexivity.
Qed.

Lemma bind_log {B} message (k : unit → M B) w :
  bind (log message) k w = k tt (logged message w).
Proof. unfold bind. rewrite log_spec. reflexivity. Qed.

Lemma bind_modify_ad {B} f (k : unit → M B) w :
  bind (modify_ad f) k w =
  k tt {| ad := f (ad w); page := page w; calls := calls w |}.
Proof. reflexivity. Qed.

Lemma bind_assoc {A B C} (m : M A) (k : A → M B) (k' : B → M C) w :
  bind (bind m k) k' w = bind m (λ a, bind (k a) k') w.
Proof. unfold bind. destruct (m w) as [[a|e] w']; reflexivity. Qed.

Lemma bind_ret {A B} (a : A) (k : A → M B) w : bind (ret a) k w = k a w.
Proof. reflexivity. Qed.

Lemma bind_property_of {A B} (field : EnvironmentVars → A) o (k : A → M B) w :
  bind (property_of field (Some o)) k w = k (field o) w.
Proof. reflexivity. Qed.

(** Run the leading [log] and field updates of a method body. *)
Ltac js_steps :=
  repeat (first [ rewrite bind_assoc | rewrite bind_log
                | rewrite bind_modify_ad | rewrite bind_ret
                | rewrite bind_property_of ];
          cbn [ad page calls]);
  cbv beta.

(** ** Where [initAd] can stop before the controls *)

(** [initAd] without its [environmentVars] stops at once. *)
Lemma initAd_without_environmentVars
    width height viewMode desiredBitrate creativeData w :
  initAd width height viewMode desiredBitrate creativeData None w =
  (Thrown TypeError, w).
Proof. reflexivity. Qed.

Lemma rootless_page_update r f p : rootless (page_update r f p) = rootless p.
Proof.
  destruct r; simpl; [reflexivity|]. destruct (parent p); reflexivity.
Qed.

Lemma rootless_log_page message p : rootless (log_page message p) = rootless p.
Proof.
  unfold log_page. destruct (resolve "lastVpaidEvent" p); [|reflexivity].
  apply rootless_page_update.
Qed.

(** [renderSlot_] throws exactly when the document refuses the body. *)
Lemma renderSlot__run w :
  renderSlot_ w =
  (if body_refused (slot_ (ad w)) (page w)
   then Thrown HierarchyRequestError else Returned tt,
   exec renderSlot_ w).
Proof.
  assert (outcome renderSlot_ w =
          if body_refused (slot_ (ad w)) (page w)
          then Thrown HierarchyRequestError else Returned tt) as <-.
  { unfold outcome, renderSlot_, document_set_body, body_refused, rootless,
      is_div, bind, get_ad, get_page, modify_ad, modify_page, throw, ret.
    simpl.
    destruct (slot_ (ad w)) as [s|]; simpl;
      [destruct (String.eqb (tagName s) "DIV"); simpl; [reflexivity|]|];
      (destruct (body (page w)) eqn:Hb; simpl; rewrite ?Hb; [reflexivity|]);
      destruct (documentElement (page w)); reflexivity. }
  unfold outcome, exec. destruct (renderSlot_ w). reflexivity.
Qed.

Lemma bind_renderSlot_ {B} (k : unit → M B) w :
  bind renderSlot_ k w =
  if body_refused (slot_ (ad w)) (page w)
  then (Thrown HierarchyRequestError, exec renderSlot_ w)
  else k tt (exec renderSlot_ w).
Proof.
  unfold bind. rewrite renderSlot__run.
  destruct (body_refused _ _); reflexivity.
Qed.

Lemma resolve_log_page key message p :
  resolve key (log_page message p) = resolve key p.
Proof.
  unfold log_page. destruct (resolve "lastVpaidEvent" p); [|reflexivity].
  apply resolve_page_update.
Qed.

Lemma call_callback_spec name args w :
  call_callback name args w =
  match eventCallbacks_ (ad w) !! name with
  | Some (CbBound f this) =>
      (Returned tt,
       {| ad := ad w; page := page w;
          calls := calls w ++ [Invoke f this args] |})
  | _ => (Thrown TypeError, w)
  end.
Proof.
  unfold call_callback, bind, get_ad.
  destruct (eventCallbacks_ (ad w) !! name) as [[|f this]|]; reflexivity.
Qed.

(** ** Properties of the unit that every call preserves *)

Create HintDb preserves discriminated.

Section Preservation.
Variable P : VpaidAd → list Invocation → Prop.

#[local] Abbreviation preserves := (preserves P).

Lemma preserves_ret {A} (a : A) : preserves (ret a).
Proof. intros w H. exact H. Qed.

Lemma preserves_throw {A} e : preserves (@throw A e).
Proof. intros w H. exact H. Qed.

Lemma preserves_get_ad : preserves get_ad.
Proof. intros w H. exact H. Qed.

Lemma preserves_get_page : preserves get_page.
Proof. intros w H. exact H. Qed.

Lemma preserves_modify_page f : preserves (modify_page f).
Proof. intros w H. exact H. Qed.

Lemma preserves_modify_ad f :
  (∀ a c, P a c → P (f a) c) → preserves (modify_ad f).
Proof. intros Hf w H. apply Hf, H. Qed.

Lemma preserves_bind {A B} (m : M A) (k : A → M B) :
  preserves m → (∀ a, preserves (k a)) → preserves (bind m k).
Proof.
  intros Hm Hk w H. specialize (Hm w H). unfold exec, bind in *.
  destruct (m w) as [[a|e] w']; simpl in *; [apply Hk, Hm | exact Hm].
Qed.

Lemma preserves_try_catch {A} (m h : M A) :
  preserves m → preserves h → preserves (try_catch m h).
Proof.
  intros Hm Hh w H. specialize (Hm w H). unfold exec, try_catch in *.
  destruct (m w) as [[a|e] w']; simpl in *; [exact Hm | apply Hh, Hm].
Qed.

Lemma preserves_getElement_ key : preserves (getElement_ key).
Proof. intros w H. unfold exec. rewrite getElement_spec. exact H. Qed.

Lemma preserves_log message : preserves (log message).
Proof. intros w H. unfold exec. rewrite log_spec. exact H. Qed.

Lemma preserves_on_element r f : preserves (on_element r f).
Proof. destruct r; intros w H; exact H. Qed.

Lemma preserves_value_of r : preserves (value_of r).
Proof. destruct r; intros w H; exact H. Qed.

Lemma preserves_subscribed_in name : preserves (subscribed_in name).
Proof. intros w H. exact H. Qed.

Lemma preserves_isEventSubscribed_ name : preserves (isEventSubscribed_ name).
Proof. intros w H. exact H. Qed.

Lemma preserves_js_bind cb ctx : preserves (js_bind cb ctx).
Proof. destruct cb; intros w H; exact H. Qed.

Lemma preserves_property_of {A} (field : EnvironmentVars → A) o :
  preserves (property_of field o).
Proof. destruct o; intros w H; exact H. Qed.

Hint Resolve preserves_ret preserves_throw preserves_get_ad preserves_get_page
  preserves_modify_page preserves_getElement_ preserves_log
  preserves_on_element preserves_value_of preserves_subscribed_in
  preserves_isEventSubscribed_ preserves_js_bind preserves_property_of
  : preserves.

Ltac preserves_step :=
  lazymatch goal with
  | |- preserves (bind _ _) => apply preserves_bind; [|intros]
  | |- preserves (try_catch _ _) => apply preserves_try_catch
  | |- preserves (if ?b then _ else _) => destruct b
  | |- preserves (match ?x with _ => _ end) => destruct x
  | |- preserves (modify_ad _) => apply preserves_modify_ad; intros
  | |- preserves _ => solve [auto with preserves]
  end.

Ltac preserves_tac := cbv zeta; repeat preserves_step.

Lemma preserves_setupScrollListener_ : preserves setupScrollListener_.
Proof. unfold setupScrollListener_, parent_addEventListener. preserves_tac. Qed.

Lemma preserves_addButtonListeners_ : preserves addButtonListeners_.
Proof. unfold addButtonListeners_. preserves_tac. Qed.

Lemma preserves_fillProperties_loop keys : preserves (fillProperties_loop keys).
Proof. induction keys; simpl; preserves_tac. Qed.

Lemma preserves_fillProperties_ : preserves fillProperties_.
Proof.
  unfold fillProperties_. preserves_tac. apply preserves_fillProperties_loop.
Qed.

Lemma preserves_eventSelected_ : preserves eventSelected_.
Proof. unfold eventSelected_. preserves_tac. Qed.

Hint Resolve preserves_setupScrollListener_ preserves_addButtonListeners_
  preserves_fillProperties_ preserves_eventSelected_ : preserves.

(** The ways a method changes the unit and the calls made. *)
Hypothesis P_slot : ∀ s a c, P a c → P (with_slot s a) c.
Hypothesis P_videoSlot : ∀ v a c, P a c → P (with_videoSlot v a) c.
Hypothesis P_callback : ∀ name cb a c, P a c → P (with_callback name cb a) c.
Hypothesis P_attribute :
  ∀ key v a c, key ∈ written_keys → P a c → P (with_attribute key v a) c.
Hypothesis P_call : ∀ a c i, P a c → P a (c ++ [i]).

Lemma preserves_renderSlot_ : preserves renderSlot_.
Proof using P_slot.
  unfold renderSlot_, document_set_body. preserves_tac; auto.
Qed.

Lemma preserves_call_callback name args : preserves (call_callback name args).
Proof using P_call.
  intros w H. unfold exec. rewrite call_callback_spec.
  destruct (eventCallbacks_ (ad w) !! name) as [[|f this]|]; simpl; auto.
Qed.

Hint Resolve preserves_renderSlot_ preserves_call_callback : preserves.

Lemma preserves_interactive_handlers :
  preserves adClickThruHandler_ ∧ preserves adErrorHandler_ ∧
  preserves adLogHandler_ ∧ preserves adInteractionHandler_.
Proof using P_call.
  unfold adClickThruHandler_, adErrorHandler_, adLogHandler_,
    adInteractionHandler_.
  repeat split; preserves_tac.
Qed.

Lemma preserves_triggerEvent_ : preserves triggerEvent_.
Proof using P_call.
  destruct preserves_interactive_handlers as (H1 & H2 & H3 & H4).
  unfold triggerEvent_. preserves_tac; assumption.
Qed.

Hint Resolve preserves_triggerEvent_ : preserves.

Ltac written := unfold written_keys; set_solver.

(** Every call keeps such a property, returning or throwing. *)
Lemma perform_preserves op : preserves (perform op).
Proof using P_slot P_videoSlot P_callback P_attribute P_call.
  destruct op; unfold perform, void;
    unfold initAd, handshakeVersion, startAd, stopAd, setAdVolume,
      getAdVolume, resizeAd, pauseAd, resumeAd, expandAd, getAdExpanded,
      getAdSkippableState, collapseAd, skipAd, subscribe, unsubscribe,
      getAdWidth, getAdHeight, getAdRemainingTime, getAdDuration,
      getAdCompanions, getAdIcons, getAdLinear;
    preserves_tac; auto; apply P_attribute; auto; written.
Qed.
End Preservation.

(** ** What a method can throw *)

Create HintDb throws discriminated.

Lemma never_throws_only_TypeError {A} (m : M A) :
  never_throws m → only_TypeError m.
Proof. intros H w e E. destruct (H w) as [a Ha]. congruence. Qed.

Lemma only_TypeError_bind {A B} (m : M A) (k : A → M B) :
  only_TypeError m → (∀ a, only_TypeError (k a)) → only_TypeError (bind m k).
Proof.
  intros Hm Hk w e. specialize (Hm w). unfold outcome, bind in *.
  destruct (m w) as [[a|e'] w']; simpl in *.
  - apply Hk.
  - intros [= <-]. apply Hm. reflexivity.
Qed.

Lemma never_throws_bind {A B} (m : M A) (k : A → M B) :
  never_throws m → (∀ a, never_throws (k a)) → never_throws (bind m k).
Proof.
  intros Hm Hk w. destruct (Hm w) as [a Ha]. unfold outcome, bind in *.
  destruct (m w) as [[a'|e'] w']; simpl in *; [apply Hk | discriminate].
Qed.

Lemma never_throws_ret {A} (a : A) : never_throws (ret a).
Proof. intros w. exists a. reflexivity. Qed.

Lemma never_throws_get_ad : never_throws get_ad.
Proof. intros w. eexists. reflexivity. Qed.

Lemma never_throws_get_page : never_throws get_page.
Proof. intros w. eexists. reflexivity. Qed.

Lemma never_throws_modify_ad f : never_throws (modify_ad f).
Proof. intros w. eexists. reflexivity. Qed.

Lemma never_throws_modify_page f : never_throws (modify_page f).
Proof. intros w. eexists. reflexivity. Qed.

Lemma never_throws_getElement_ key : never_throws (getElement_ key).
Proof. intros w. eexists. unfold outcome. rewrite getElement_spec. reflexivity. Qed.

Lemma never_throws_log message : never_throws (log message).
Proof. intros w. eexists. unfold outcome. rewrite log_spec. reflexivity. Qed.

Lemma never_throws_try_catch {A} (m h : M A) :
  never_throws h → never_throws (try_catch m h).
Proof.
  intros Hh w. unfold outcome, try_catch.
  destruct (m w) as [[a|e] w']; simpl; [eexists; reflexivity | apply Hh].
Qed.

Lemma only_TypeError_throw {A} : only_TypeError (@throw A TypeError).
Proof. intros w e [= <-]. reflexivity. Qed.

Lemma only_TypeError_on_element r f : only_TypeError (on_element r f).
Proof. destruct r; intros w err; [discriminate | intros [= <-]; reflexivity]. Qed.

Lemma only_TypeError_value_of r : only_TypeError (value_of r).
Proof. destruct r; intros w err; [discriminate | intros [= <-]; reflexivity]. Qed.

Lemma only_TypeError_call_callback name args :
  only_TypeError (call_callback name args).
Proof.
  intros w e. unfold outcome. rewrite call_callback_spec.
  destruct (eventCallbacks_ (ad w) !! name) as [[|f this]|]; simpl;
    congruence.
Qed.

#[global] Hint Resolve never_throws_ret never_throws_get_ad never_throws_get_page
  never_throws_modify_ad never_throws_modify_page never_throws_getElement_
  never_throws_log : throws.
#[global] Hint Resolve only_TypeError_throw only_TypeError_on_element
  only_TypeError_value_of only_TypeError_call_callback : throws.

Ltac throws_step :=
  lazymatch goal with
  | |- never_throws (bind _ _) => apply never_throws_bind; [|intros]
  | |- never_throws (try_catch _ _) => apply never_throws_try_catch
  | |- only_TypeError (bind _ _) => apply only_TypeError_bind; [|intros]
  | |- _ (if ?b then _ else _) => destruct b
  | |- _ (match ?x with _ => _ end) => destruct x
  | |- never_throws _ => solve [auto with throws]
  | |- only_TypeError _ =>
      solve [auto with throws
            | apply never_throws_only_TypeError; auto with throws]
  end.

Ltac throws_tac := cbv zeta; repeat throws_step.

Lemma never_throws_setupScrollListener_ : never_throws setupScrollListener_.
Proof. unfold setupScrollListener_. throws_tac. Qed.

Lemma only_TypeError_addButtonListeners_ : only_TypeError addButtonListeners_.
Proof. unfold addButtonListeners_. throws_tac. Qed.

Lemma only_TypeError_fillProperties_ : only_TypeError fillProperties_.
Proof.
  unfold fillProperties_. throws_tac.
  induction (attr_keys (attributes_ a)); simpl; throws_tac.
Qed.

#[global] Hint Resolve never_throws_setupScrollListener_
  only_TypeError_addButtonListeners_ only_TypeError_fillProperties_ : throws.

Lemma doomed_bind {A B} P (m : M A) (k : A → M B) :
  preserves P m → only_TypeError m → (∀ a, doomed P (k a)) →
  doomed P (bind m k).
Proof.
  intros Hp Ht Hk w H. specialize (Hp w H). specialize (Ht w).
  unfold doomed, outcome, exec, bind in *.
  destruct (m w) as [[a|e] w']; simpl in *.
  - apply Hk, Hp.
  - split; [f_equal; apply Ht; reflexivity | exact Hp].
Qed.

(** What follows [renderSlot_] in [initAd]: without a function under
    ["AdLoaded"] it throws a [TypeError]. *)
Lemma initAd_rest_doomed (P : VpaidAd → list Invocation → Prop) :
  (∀ a c f this, P a c → eventCallbacks_ a !! "AdLoaded" ≠ Some (CbBound f this)) →
  doomed P
    (addButtonListeners_ ;; fillProperties_ ;;
     call_callback "AdLoaded" [] ;; setupScrollListener_).
Proof.
  intros Hnone.
  repeat (apply doomed_bind;
          [ first [ apply preserves_addButtonListeners_
                  | apply preserves_fillProperties_ ]
          | throws_tac
          | intros _ ]).
  intros w Hw. unfold outcome, exec, bind. rewrite call_callback_spec.
  destruct (eventCallbacks_ (ad w) !! "AdLoaded") as [[|f this]|] eqn:E;
    simpl; auto.
  exfalso. exact (Hnone _ _ f this Hw E).
Qed.

(** The part of [initAd] that follows the attribute writes and the log:
    without a function under ["AdLoaded"] it throws, in [renderSlot_] when
    the document refuses the body and with a [TypeError] otherwise. *)
Lemma initAd_tail_doomed (P : VpaidAd → list Invocation → Prop) w :
  (∀ s a c, P a c → P (with_slot s a) c) →
  (∀ a c f this, P a c → eventCallbacks_ a !! "AdLoaded" ≠ Some (CbBound f this)) →
  P (ad w) (calls w) →
  let tail := renderSlot_ ;; addButtonListeners_ ;; fillProperties_ ;;
              call_callback "AdLoaded" [] ;; setupScrollListener_ in
  outcome tail w =
    Thrown (if body_refused (slot_ (ad w)) (page w)
            then HierarchyRequestError else TypeError) ∧
  P (ad (exec tail w)) (calls (exec tail w)).
Proof.
  intros Hslot Hnone HP. cbv zeta. unfold outcome, exec.
  rewrite bind_renderSlot_.
  pose proof (preserves_renderSlot_ P Hslot w HP) as HP'.
  destruct (body_refused _ _); [split; [reflexivity | exact HP']|].
  exact (initAd_rest_doomed P Hnone _ HP').
Qed.

Lemma body_refused_log_page s message p :
  body_refused s (log_page message p) = body_refused s p.
Proof. unfold body_refused. rewrite rootless_log_page. reflexivity. Qed.

(** ** Emitting an event *)

(** The guarded call every lifecycle method but [initAd] ends with: test
    [key in eventCallbacks_], then call the entry under [name]. *)
Lemma guarded_call_spec key name w :
  (registered <- subscribed_in key ;;
   if registered then call_callback name [] else ret tt) w =
  match eventCallbacks_ (ad w) !! key with
  | None => (Returned tt, w)
  | Some _ =>
      match eventCallbacks_ (ad w) !! name with
      | Some (CbBound f this) =>
          (Returned tt,
           {| ad := ad w; page := page w;
              calls := calls w ++ [Invoke f this []] |})
      | _ => (Thrown TypeError, w)
      end
  end.
Proof.
  unfold subscribed_in, call_callback, bind, get_ad, ret; simpl.
  destruct (eventCallbacks_ (ad w) !! key) as [c|]; simpl; [|reflexivity].
  destruct (eventCallbacks_ (ad w) !! name) as [[|f this]|]; reflexivity.
Qed.

(** Where the key tested is the name called and a function is stored under
    it, the function is called once, with no argument. *)
Lemma guarded_call_registered name f this w :
  eventCallbacks_ (ad w) !! name = Some (CbBound f this) →
  (registered <- subscribed_in name ;;
   if registered then call_callback name [] else ret tt) w =
  (Returned tt,
   {| ad := ad w; page := page w; calls := calls w ++ [Invoke f this []] |}).
Proof. intros H. rewrite guarded_call_spec, H. reflexivity. Qed.

(** [pauseAd], [resumeAd], [setAdVolume], [resizeAd] and [expandAd] call the
    function subscribed under the name they emit exactly once. *)
Lemma lifecycle_calls_subscriber w f this :
  (eventCallbacks_ (ad w) !! "AdPaused" = Some (CbBound f this) →
   outcome pauseAd w = Returned tt ∧
   calls (exec pauseAd w) = calls w ++ [Invoke f this []]) ∧
  (eventCallbacks_ (ad w) !! "AdResumed" = Some (CbBound f this) →
   outcome resumeAd w = Returned tt ∧
   calls (exec resumeAd w) = calls w ++ [Invoke f this []]) ∧
  (∀ v, eventCallbacks_ (ad w) !! "AdVolumeChange" = Some (CbBound f this) →
   outcome (setAdVolume v) w = Returned tt ∧
   calls (exec (setAdVolume v) w) = calls w ++ [Invoke f this []]) ∧
  (∀ width height viewMode,
   eventCallbacks_ (ad w) !! "AdSizeChange" = Some (CbBound f this) →
   outcome (resizeAd width height viewMode) w = Returned tt ∧
   calls (exec (resizeAd width height viewMode) w) =
     calls w ++ [Invoke f this []]) ∧
  (eventCallbacks_ (ad w) !! "AdExpanded" = Some (CbBound f this) →
   outcome expandAd w = Returned tt ∧
   calls (exec expandAd w) = calls w ++ [Invoke f this []]).
Proof.
  unfold outcome, exec, pauseAd, resumeAd, setAdVolume, resizeAd, expandAd.
  repeat split; intros; js_steps;
    erewrite guarded_call_registered by eassumption; reflexivity.
Qed.

(** [startAd] and [stopAd] test ["AdStart"] and ["AdStop"]: with nothing
    stored under the tested key they call nothing, whatever is stored under
    ["AdStarted"] and ["AdStopped"]. *)
Lemma startAd_stopAd_tested_keys w :
  (eventCallbacks_ (ad w) !! "AdStart" = None →
   outcome startAd w = Returned tt ∧ calls (exec startAd w) = calls w) ∧
  (eventCallbacks_ (ad w) !! "AdStop" = None →
   outcome stopAd w = Returned tt ∧ calls (exec stopAd w) = calls w).
Proof.
  unfold outcome, exec, startAd, stopAd.
  split; intros H; js_steps; rewrite guarded_call_spec; simpl; rewrite H;
    split; reflexivity.
Qed.

(** ** The claims *)

(** C1 (the code departs from it).  A function subscribed under ["AdStarted"]
    is not called by [startAd], and one subscribed under ["AdStopped"] is not
    called by [stopAd]: both methods return normally with no call recorded,
    because they test the keys ["AdStart"] and ["AdStop"].  A host that
    subscribes under the tested key alone gets a [TypeError], since the entry
    then called, ["AdStarted"] or ["AdStopped"], is missing. *)
Theorem startAd_stopAd_miss_their_subscriber (p : Page) (h : Fn) (ctx : JsVal) :
  let started := exec (subscribe (JFun h) "AdStarted" ctx) (fresh p) in
  let stopped := exec (subscribe (JFun h) "AdStopped" ctx) (fresh p) in
  let start := exec (subscribe (JFun h) "AdStart" ctx) (fresh p) in
  let stop := exec (subscribe (JFun h) "AdStop" ctx) (fresh p) in
  (outcome startAd started = Returned tt ∧ calls (exec startAd started) = []) ∧
  (outcome stopAd stopped = Returned tt ∧ calls (exec stopAd stopped) = []) ∧
  (outcome startAd start = Thrown TypeError ∧ calls (exec startAd start) = []) ∧
  (outcome stopAd stop = Thrown TypeError ∧ calls (exec stopAd stop) = []).
Proof.
  unfold exec, outcome, subscribe, startAd, stopAd. rewrite !bind_log.
  repeat split; reflexivity.
Qed.

(** C2 (the code departs from it).  After [unsubscribe("AdPaused")], from any
    state of the unit, [pauseAd] throws a [TypeError]: [unsubscribe] stores
    [null] under the name, the test [name in eventCallbacks_] still succeeds,
    and the call of [null] fails.  No function is called. *)
Theorem pauseAd_throws_after_unsubscribe (w : World) (h : Fn) (ctx : JsVal) :
  let w' := run [Subscribe (JFun h) "AdPaused" ctx; Unsubscribe "AdPaused"] w in
  outcome pauseAd w' = Thrown TypeError ∧ calls (exec pauseAd w') = calls w.
Proof.
  unfold run, perform, void, exec, outcome, subscribe, unsubscribe, pauseAd.
  unfold js_bind. js_steps.
  rewrite guarded_call_spec. cbn.
  rewrite !lookup_insert_eq. split; reflexivity.
Qed.

(** The operator-triggered handlers test [typeof ... === "function"] instead,
    and after [unsubscribe] they only log. *)
Lemma adErrorHandler__after_unsubscribe (w : World) :
  let w' := exec (unsubscribe "AdError") w in
  outcome adErrorHandler_ w' = Returned tt ∧
  calls (exec adErrorHandler_ w') = calls w.
Proof.
  unfold exec, outcome, unsubscribe, adErrorHandler_, isEventSubscribed_.
  js_steps. cbn. rewrite lookup_insert_eq. cbn.
  rewrite log_spec. split; reflexivity.
Qed.

(** C3 (the code departs from it).  A fresh unit with nothing subscribed
    throws from [initAd], on every page and for all arguments: the call of
    [eventCallbacks_["AdLoaded"]] is not guarded and nothing before it can
    make it succeed.  The exception is a [TypeError], or the
    [HierarchyRequestError] of [renderSlot_] on a document that refuses the
    body.  No function is called.  The unit is still there afterwards: when
    [environmentVars] was an object the attributes were stored before the
    throw and the getters return them, and when it was left out the unit is
    as it was. *)
Theorem initAd_throws_without_subscriber
    (width height viewMode desiredBitrate creativeData : JsVal)
    (environmentVars : option EnvironmentVars) (p : Page) :
  let call := initAd width height viewMode desiredBitrate creativeData
                environmentVars in
  outcome call (fresh p) =
    Thrown (if initAd_refused environmentVars p
            then HierarchyRequestError else TypeError) ∧
  calls (exec call (fresh p)) = [] ∧
  match environmentVars with
  | Some _ =>
      outcome getAdWidth (exec call (fresh p)) = Returned width ∧
      outcome getAdHeight (exec call (fresh p)) = Returned height
  | None => exec call (fresh p) = fresh p
  end.
Proof.
  intros call. subst call. destruct environmentVars as [o|].
  2:{ unfold outcome, exec. rewrite initAd_without_environmentVars.
      repeat split. }
  set (P := λ (a : VpaidAd) (c : list Invocation),
         eventCallbacks_ a = ∅ ∧ c = [] ∧
         attr_read "width" (attributes_ a) = width ∧
         attr_read "height" (attributes_ a) = height).
  set (call := initAd width height viewMode desiredBitrate creativeData (Some o)).
  assert (outcome call (fresh p) =
            Thrown (if body_refused (slot o) p
                    then HierarchyRequestError else TypeError) ∧
          P (ad (exec call (fresh p))) (calls (exec call (fresh p))))
    as (Hthrown & _ & Hcalls & Hwidth & Hheight).
  { subst call. unfold initAd, outcome, exec. js_steps.
    match goal with |- context [bind renderSlot_ _ ?w1] =>
      rewrite <- (body_refused_log_page (slot o) _ p :
                    body_refused (slot_ (ad w1)) (page w1) = _)
    end.
    refine (initAd_tail_doomed P _ _ _ _).
    - intros s a c H. exact H.
    - intros a c f this (H & _) E. rewrite H, lookup_empty in E. discriminate.
    - simpl. repeat split; rewrite ?attr_read_set_ne, ?attr_read_set_eq by reflexivity;
        reflexivity. }
  unfold outcome, getAdWidth, getAdHeight, bind, get_ad, ret in *. simpl.
  rewrite Hwidth, Hheight. auto.
Qed.

(** C6.  [getAdVolume()] after [setAdVolume(v)] returns [v] itself, for every
    value [v] (numbers inside and outside 0..100 included), whether or not
    the volume-change call in between returns or throws. *)
Theorem getAdVolume_after_setAdVolume (v : JsVal) (w : World) :
  outcome getAdVolume (exec (setAdVolume v) w) = Returned v.
Proof.
  unfold exec, outcome, getAdVolume, setAdVolume. js_steps.
  rewrite guarded_call_spec. simpl.
  destruct (eventCallbacks_ (ad w) !! "AdVolumeChange") as [[|f this]|];
    simpl; rewrite attr_read_set_eq; reflexivity.
Qed.

(** C7.  [handshakeVersion] returns ["2.0"] for every string, the empty one
    included, and changes nothing. *)
Theorem handshakeVersion_fixed (version : string) (w : World) :
  outcome (handshakeVersion (JStr version)) w = Returned "2.0" ∧
  exec (handshakeVersion (JStr version)) w = w ∧
  outcome (handshakeVersion (JStr "")) w = Returned "2.0".
Proof. repeat split. Qed.

(** ** Invariants of the reachable worlds *)

Lemma reachable_invariant (P : VpaidAd → list Invocation → Prop) :
  (∀ s a c, P a c → P (with_slot s a) c) →
  (∀ v a c, P a c → P (with_videoSlot v a) c) →
  (∀ name cb a c, P a c → P (with_callback name cb a) c) →
  (∀ key v a c, key ∈ written_keys → P a c → P (with_attribute key v a) c) →
  (∀ a c i, P a c → P a (c ++ [i])) →
  P getVPAIDAd [] →
  ∀ w, reachable w → P (ad w) (calls w).
Proof.
  intros H1 H2 H3 H4 H5 H0 w Hw. induction Hw; simpl; auto.
  apply perform_preserves; assumption.
Qed.

Lemma written_keys_are_attributes key : key ∈ written_keys → key ∈ attribute_keys.
Proof.
  unfold written_keys, attribute_keys. rewrite !elem_of_cons, !elem_of_nil.
  tauto.
Qed.

Lemma written_keys_not_skippableState key :
  key ∈ written_keys → String.eqb key "skippableState" = false.
Proof.
  unfold written_keys. rewrite !elem_of_cons, elem_of_nil.
  intros [->|[->|[->|[->|[->|[->|[]]]]]]]; reflexivity.
Qed.

Lemma attr_keys_set_known key v o :
  attr_keys o = attribute_keys → key ∈ attribute_keys →
  attr_keys (attr_set key v o) = attribute_keys.
Proof. intros Ho Hkey. rewrite attr_keys_set; [exact Ho | rewrite Ho; exact Hkey]. Qed.

(** A call keeps the keys of [attributes_]. *)
Lemma perform_keeps_keys op w :
  attr_keys (attributes_ (ad w)) = attribute_keys →
  attr_keys (attributes_ (ad (exec (perform op) w))) = attribute_keys.
Proof.
  apply (perform_preserves (λ a _, attr_keys (attributes_ a) = attribute_keys));
    auto.
  intros key v a _ Hkey Ha. simpl.
  apply attr_keys_set_known; [exact Ha|].
  apply written_keys_are_attributes, Hkey.
Qed.

Lemma reachable_keys w :
  reachable w → attr_keys (attributes_ (ad w)) = attribute_keys.
Proof.
  induction 1; simpl; auto using perform_keeps_keys.
Qed.

(** No call writes [skippableState]. *)
Lemma reachable_not_skippable w :
  reachable w → attr_read "skippableState" (attributes_ (ad w)) = JBool false.
Proof.
  intros Hw.
  apply (reachable_invariant
           (λ a _, attr_read "skippableState" (attributes_ a) = JBool false));
    auto.
  intros key v a _ Hkey Ha. simpl.
  rewrite attr_read_set_ne; [exact Ha|].
  apply written_keys_not_skippableState, Hkey.
Qed.

(** [skipAd] when [skippableState] is falsy: a log entry and nothing else. *)
Lemma skipAd_not_skippable w :
  js_truthy (attr_read "skippableState" (attributes_ (ad w))) = false →
  skipAd w = log "skipAd" w.
Proof.
  intros H. unfold skipAd. js_steps. rewrite log_spec.
  unfold bind, get_ad. simpl. rewrite H. reflexivity.
Qed.

(** C8.  With a function subscribed under ["AdExpanded"], [expandAd()] calls
    it exactly once, with no argument, and [getAdExpanded()] then returns
    [true]; a following [collapseAd()] calls nothing, and [getAdExpanded()]
    then returns [false]. *)
Theorem expandAd_then_collapseAd (w : World) (f : Fn) (this : JsVal) :
  eventCallbacks_ (ad w) !! "AdExpanded" = Some (CbBound f this) →
  let expanded := exec expandAd w in
  let collapsed := exec collapseAd (exec getAdExpanded expanded) in
  outcome expandAd w = Returned tt ∧
  calls expanded = calls w ++ [Invoke f this []] ∧
  outcome getAdExpanded expanded = Returned (JBool true) ∧
  outcome collapseAd (exec getAdExpanded expanded) = Returned tt ∧
  calls collapsed = calls expanded ∧
  outcome getAdExpanded collapsed = Returned (JBool false).
Proof.
  intros H. unfold exec, outcome, expandAd, collapseAd, getAdExpanded.
  js_steps. erewrite guarded_call_registered by exact H. js_steps. simpl.
  rewrite !attr_read_set_eq. repeat split.
Qed.

Lemma expandAd_then_collapseAd_witness :
  calls (exec expandAd expand_listener) = [Invoke recorder JNull []] ∧
  outcome getAdExpanded (exec expandAd expand_listener) = Returned (JBool true) ∧
  calls (exec collapseAd (exec getAdExpanded (exec expandAd expand_listener))) =
    [Invoke recorder JNull []] ∧
  outcome getAdExpanded
    (exec collapseAd (exec getAdExpanded (exec expandAd expand_listener))) =
    Returned (JBool false).
Proof.
  destruct (expandAd_then_collapseAd expand_listener recorder JNull)
    as (_ & H1 & H2 & _ & H3 & H4).
  { vm_compute. reflexivity. }
  split; [exact H1|]. split; [exact H2|]. split; [|exact H4].
  rewrite H3. exact H1.
Defined.

(** C9.  [attributes_] is built with twelve distinct keys, and every call,
    returning or throwing, leaves exactly those keys, in the same order: in
    every reachable world the keys are the twelve of the constructor. *)
Theorem attribute_keys_fixed :
  attr_keys (attributes_ getVPAIDAd) = attribute_keys ∧
  length attribute_keys = 12 ∧
  NoDup attribute_keys ∧
  (∀ w op,
     attr_keys (attributes_ (ad w)) = attribute_keys →
     attr_keys (attributes_ (ad (exec (perform op) w))) = attribute_keys) ∧
  (∀ w, reachable w → attr_keys (attributes_ (ad w)) = attribute_keys).
Proof.
  split; [reflexivity|]. split; [reflexivity|]. split.
  - refine (bool_decide_unpack _ _). vm_compute. exact I.
  - split; [intros w op; apply perform_keeps_keys | apply reachable_keys].
Qed.

Lemma attribute_keys_fixed_witness :
  attr_keys (attributes_ (ad resized)) = attribute_keys ∧
  attr_keys (attributes_ (ad (exec (perform ExpandAd) resized))) = attribute_keys.
Proof.
  destruct attribute_keys_fixed as (_ & _ & _ & Hstep & Hreach).
  assert (reachable resized) as Hw by (apply reachable_call, reachable_fresh).
  split; [apply Hreach, Hw | apply Hstep, Hreach, Hw].
Defined.

(** C10.  [skippableState] is [false] in a new unit and no call writes it, so
    it is [false] in every reachable world; there [skipAd()] returns without
    calling any function, whatever is subscribed. *)
Theorem skipAd_never_emits :
  attr_read "skippableState" (attributes_ getVPAIDAd) = JBool false ∧
  ∀ w, reachable w →
    attr_read "skippableState" (attributes_ (ad w)) = JBool false ∧
    outcome skipAd w = Returned tt ∧
    calls (exec skipAd w) = calls w.
Proof.
  split; [reflexivity|]. intros w Hw.
  pose proof (reachable_not_skippable w Hw) as H. split; [exact H|].
  assert (skipAd w = log "skipAd" w) as E
    by (apply skipAd_not_skippable; rewrite H; reflexivity).
  unfold outcome, exec. rewrite E, log_spec. split; reflexivity.
Qed.

Lemma skipAd_never_emits_witness :
  outcome skipAd skip_listener = Returned tt ∧
  calls (exec skipAd skip_listener) = [].
Proof.
  destruct skipAd_never_emits as (_ & H).
  destruct (H skip_listener) as (_ & H1 & H2).
  { do 2 apply reachable_call. apply reachable_fresh. }
  split; [exact H1 | exact H2].
Defined.

(** ** [skipAd] *)





(** ** [initAd], step by step *)

Lemma finds_resolve key w : finds key w ↔ is_Some (resolve key (page w)).
Proof.
  unfold finds, outcome. rewrite getElement_spec. simpl. split.
  - intros [r [= ->]]. eexists; reflexivity.
  - intros [r ->]. eexists; reflexivity.
Qed.

Lemma resolve_ext key p p' :
  document p' = document p → parent p' = parent p →
  resolve key p' = resolve key p.
Proof. intros Hd Hp. unfold resolve. rewrite Hd, Hp. reflexivity. Qed.

(** [initAd] with its [environmentVars]: the stores and the log line, then
    the five calls. *)
Lemma initAd_unfold width height viewMode desiredBitrate creativeData o w :
  initAd width height viewMode desiredBitrate creativeData (Some o) w =
  (renderSlot_ ;; addButtonListeners_ ;; fillProperties_ ;;
   call_callback "AdLoaded" [] ;; setupScrollListener_)
    (initAd_stored width height viewMode desiredBitrate o w).
Proof. unfold initAd. js_steps. reflexivity. Qed.

Lemma initAd_stored_refused width height viewMode desiredBitrate o w :
  body_refused
    (slot_ (ad (initAd_stored width height viewMode desiredBitrate o w)))
    (page (initAd_stored width height viewMode desiredBitrate o w)) =
  body_refused (slot o) (page w).
Proof. apply body_refused_log_page. Qed.

Lemma initAd_stored_resolve width height viewMode desiredBitrate o w key :
  resolve key (page (initAd_stored width height viewMode desiredBitrate o w)) =
  resolve key (page w).
Proof. apply resolve_log_page. Qed.

(** What [renderSlot_] leaves alone, returning or throwing. *)
Lemma renderSlot__frame w :
  document (page (exec renderSlot_ w)) = document (page w) ∧
  parent (page (exec renderSlot_ w)) = parent (page w) ∧
  attributes_ (ad (exec renderSlot_ w)) = attributes_ (ad w) ∧
  eventCallbacks_ (ad (exec renderSlot_ w)) = eventCallbacks_ (ad w) ∧
  videoSlot_ (ad (exec renderSlot_ w)) = videoSlot_ (ad w) ∧
  calls (exec renderSlot_ w) = calls w.
Proof.
  unfold exec, renderSlot_, document_set_body, bind, get_ad, get_page,
    modify_ad, modify_page, throw, ret.
  simpl. destruct (negb _); simpl; [|repeat split].
  destruct (body (page w)) eqn:Hb; simpl; rewrite ?Hb; simpl; [repeat split|].
  destruct (documentElement (page w)); repeat split.
Qed.

Lemma renderSlot__resolve key w :
  resolve key (page (exec renderSlot_ w)) = resolve key (page w).
Proof.
  destruct (renderSlot__frame w) as (Hd & Hp & _). apply resolve_ext; assumption.
Qed.

Lemma settled_refl w : settled w w.
Proof. split; reflexivity. Qed.

Lemma settled_trans w1 w2 w3 : settled w1 w2 → settled w2 w3 → settled w1 w3.
Proof.
  intros [A1 B1 C1 D1] [A2 B2 C2 D2].
  split; [congruence | congruence | congruence |].
  intros key. rewrite D2. apply D1.
Qed.

Lemma settled_logged message w : settled w (logged message w).
Proof. split; try reflexivity. intros key. apply resolve_log_page. Qed.

Lemma settles_bind (m k : M unit) w :
  settles m w → (∀ w', settled w w' → settles k w') → settles (m ;; k) w.
Proof.
  intros (w1 & E1 & S1) Hk. destruct (Hk w1 S1) as (w2 & E2 & S2).
  exists w2. unfold bind. rewrite E1. split; [exact E2|].
  eapply settled_trans; eassumption.
Qed.

Lemma settles_renderSlot_ w :
  body_refused (slot_ (ad w)) (page w) = false → settles renderSlot_ w.
Proof.
  intros H. exists (exec renderSlot_ w).
  split; [rewrite renderSlot__run, H; reflexivity|].
  destruct (renderSlot__frame w) as (_ & _ & Ha & Hc & _ & Hcalls).
  split; try assumption. intros key. apply renderSlot__resolve.
Qed.

Lemma settles_on_element key f w :
  is_Some (resolve key (page w)) →
  settles (e <- getElement_ key ;; on_element e f) w.
Proof.
  intros [r Hr]. unfold settles, bind. rewrite getElement_spec, Hr. simpl.
  eexists; split; [reflexivity|]. split; try reflexivity.
  intros key'. apply resolve_page_update.
Qed.

Lemma settles_addButtonListeners_ w :
  is_Some (resolve "eventSelect" (page w)) →
  is_Some (resolve "triggerEvent" (page w)) →
  settles addButtonListeners_ w.
Proof.
  intros H1 H2. unfold addButtonListeners_.
  destruct (settles_on_element "eventSelect"
              (addEventListener "change" eventSelected_L) w H1)
    as (w1 & E1 & S1).
  destruct (settles_on_element "triggerEvent"
              (addEventListener "click" triggerEvent_L) w1) as (w2 & E2 & S2).
  { rewrite (settled_resolve _ _ S1). exact H2. }
  exists w2. split; [|eapply settled_trans; eassumption].
  unfold bind in *.
  destruct (getElement_ "eventSelect" w) as [[e|err] w0]; [|discriminate].
  destruct (on_element e _ w0) as [[[]|err] w0']; [|discriminate].
  injection E1 as ->. exact E2.
Qed.

Lemma settles_fillProperties_loop keys w :
  (∀ key, key ∈ keys → is_Some (resolve key (page w))) →
  settles (fillProperties_loop keys) w.
Proof.
  revert w. induction keys as [|key keys IH]; intros w Hkeys; simpl.
  - exists w. split; [reflexivity | apply settled_refl].
  - destruct (Hkeys key) as [r Hr]; [left|].
    unfold settles, bind at 1. rewrite getElement_spec, Hr.
    unfold bind at 1, get_ad at 1. unfold bind at 1. simpl.
    match goal with |- context [fillProperties_loop keys ?w1] =>
      destruct (IH w1) as (w2 & E2 & S2) end.
    { intros key' Hin. simpl. rewrite resolve_page_update.
      apply Hkeys. right. exact Hin. }
    exists w2. split; [exact E2|].
    eapply settled_trans; [|exact S2].
    split; try reflexivity. intros key'. apply resolve_page_update.
Qed.

Lemma settles_fillProperties_ w :
  (∀ key, key ∈ attr_keys (attributes_ (ad w)) → is_Some (resolve key (page w))) →
  settles fillProperties_ w.
Proof.
  intros H. unfold fillProperties_, settles, bind at 1, get_ad at 1.
  apply settles_fillProperties_loop, H.
Qed.

Lemma settles_setupScrollListener_ w : settles setupScrollListener_ w.
Proof.
  unfold settles, setupScrollListener_, try_catch, parent_addEventListener,
    bind, get_page, modify_page, throw, ret.
  simpl.
  destruct (parent (page w)) eqn:E; simpl;
    (eexists; split; [reflexivity|]); split; try reflexivity.
Qed.

(** What follows the attribute writes in [initAd] leaves [attributes_]
    alone, returning or throwing. *)
Lemma initAd_tail_keeps_attributes w :
  attributes_
    (ad (exec (renderSlot_ ;; addButtonListeners_ ;; fillProperties_ ;;
               call_callback "AdLoaded" [] ;; setupScrollListener_) w)) =
  attributes_ (ad w).
Proof.
  set (P := λ (a : VpaidAd) (_ : list Invocation),
         attributes_ a = attributes_ (ad w)).
  assert (preserves P
            (renderSlot_ ;; addButtonListeners_ ;; fillProperties_ ;;
             call_callback "AdLoaded" [] ;; setupScrollListener_)) as H.
  { repeat (apply preserves_bind; [|intros _]);
      first [ apply preserves_renderSlot_
            | apply preserves_addButtonListeners_
            | apply preserves_fillProperties_
            | apply preserves_call_callback
            | apply preserves_setupScrollListener_ ];
      intros; assumption. }
  apply (H w). reflexivity.
Qed.

(** With its [environmentVars], [initAd] stores the four attributes,
    returning or throwing. *)
Lemma initAd_attributes width height viewMode desiredBitrate creativeData o w :
  attributes_ (ad (exec (initAd width height viewMode desiredBitrate
                           creativeData (Some o)) w)) =
  attr_set "desiredBitrate" desiredBitrate
    (attr_set "viewMode" viewMode
       (attr_set "height" height
          (attr_set "width" width (attributes_ (ad w))))).
Proof.
  unfold exec. rewrite initAd_unfold.
  apply (initAd_tail_keeps_attributes
           (initAd_stored width height viewMode desiredBitrate o w)).
Qed.

Lemma initAd_getters width height viewMode desiredBitrate creativeData o w :
  let w' := exec (initAd width height viewMode desiredBitrate creativeData
                    (Some o)) w in
  outcome getAdWidth w' = Returned width ∧
  outcome getAdHeight w' = Returned height.
Proof.
  cbv zeta. unfold outcome, getAdWidth, getAdHeight, bind, get_ad, ret.
  cbn [fst]. rewrite initAd_attributes.
  split; f_equal;
    rewrite ?attr_read_set_ne, ?attr_read_set_eq by reflexivity; reflexivity.
Qed.

(** With a function under ["AdLoaded"], every element [initAd] looks up on
    the page, and a document that takes the slot, [initAd] returns and has
    called that function once. *)
Lemma initAd_returns width height viewMode desiredBitrate creativeData o w
    f this :
  eventCallbacks_ (ad w) !! "AdLoaded" = Some (CbBound f this) →
  attr_keys (attributes_ (ad w)) = attribute_keys →
  Forall (λ key, finds key w) initAd_ids →
  body_refused (slot o) (page w) = false →
  outcome (initAd width height viewMode desiredBitrate creativeData
             (Some o)) w = Returned tt ∧
  calls (exec (initAd width height viewMode desiredBitrate creativeData
                 (Some o)) w) = calls w ++ [Invoke f this []].
Proof.
  intros Hcb Hkeys Hids Hok.
  assert (∀ key, key ∈ initAd_ids → is_Some (resolve key (page w))) as Hfind.
  { intros key Hin. apply finds_resolve. rewrite Forall_forall in Hids.
    apply Hids, Hin. }
  clear Hids. unfold outcome, exec. rewrite initAd_unfold.
  rewrite <- (initAd_stored_refused width height viewMode desiredBitrate) in Hok.
  set (w1' := initAd_stored width height viewMode desiredBitrate o w) in *.
  assert (∀ key, resolve key (page w1') = resolve key (page w)) as Hres1
    by (intros key; apply resolve_log_page).
  assert (attr_keys (attributes_ (ad w1')) = attribute_keys) as Hkeys1.
  { unfold w1'. simpl.
    repeat (apply attr_keys_set_known;
            [|unfold attribute_keys;
              repeat first [apply list_elem_of_here | apply list_elem_of_further]]).
    exact Hkeys. }
  assert (eventCallbacks_ (ad w1') = eventCallbacks_ (ad w)) as Hcb1 by reflexivity.
  assert (calls w1' = calls w) as Hcalls1 by reflexivity.
  clearbody w1'.
  destruct (settles_renderSlot_ w1' Hok) as (w2 & E2 & S2).
  destruct (settles_addButtonListeners_ w2) as (w3 & E3 & S3).
  { rewrite (settled_resolve _ _ S2), Hres1. apply Hfind. left. }
  { rewrite (settled_resolve _ _ S2), Hres1. apply Hfind. right; left. }
  destruct (settles_fillProperties_ w3) as (w4 & E4 & S4).
  { intros key Hin.
    rewrite (settled_resolve _ _ S3), (settled_resolve _ _ S2), Hres1.
    apply Hfind. do 2 right.
    rewrite (settled_attributes _ _ S3), (settled_attributes _ _ S2), Hkeys1 in Hin.
    exact Hin. }
  pose (w5 := {| ad := ad w4; page := page w4;
                 calls := calls w4 ++ [Invoke f this []] |}).
  destruct (settles_setupScrollListener_ w5) as (w6 & E6 & S6).
  unfold bind. rewrite E2, E3, E4, call_callback_spec.
  rewrite (settled_callbacks _ _ S4), (settled_callbacks _ _ S3),
    (settled_callbacks _ _ S2), Hcb1, Hcb.
  fold w5. rewrite E6. simpl. split; [reflexivity|].
  rewrite (settled_calls _ _ S6). simpl.
  rewrite (settled_calls _ _ S4), (settled_calls _ _ S3),
    (settled_calls _ _ S2), Hcalls1. reflexivity.
Qed.

(** Without an [eventSelect] element, what follows the stores in [initAd]
    throws before the call of ["AdLoaded"] is reached. *)
Lemma initAd_tail_without_eventSelect w :
  resolve "eventSelect" (page w) = None →
  let tail := renderSlot_ ;; addButtonListeners_ ;; fillProperties_ ;;
              call_callback "AdLoaded" [] ;; setupScrollListener_ in
  tail w =
  (Thrown (if body_refused (slot_ (ad w)) (page w)
           then HierarchyRequestError else TypeError),
   exec renderSlot_ w).
Proof.
  intros Hr. cbv zeta. rewrite bind_renderSlot_.
  destruct (body_refused _ _); [reflexivity|].
  unfold addButtonListeners_. rewrite !bind_assoc.
  unfold bind at 1. rewrite getElement_spec, renderSlot__resolve, Hr.
  reflexivity.
Qed.

(** C4 (the code departs from it).  On a page where [getElement_] finds no
    [eventSelect] element, [initAd] throws before it reaches the call of
    [eventCallbacks_["AdLoaded"]], for all arguments and whatever is
    subscribed: the subscribed function is not called.  [initAd] wires the
    page's controls first ([addButtonListeners_]) and dereferences what
    [getElement_] returns unchecked, while [HTML_TEMPLATE], which is to
    provide the elements, has none.  The exception is a [TypeError], or the
    [HierarchyRequestError] of [renderSlot_] on a document that refuses the
    body.  The four values were stored if [environmentVars] was an object,
    and [getAdWidth()] and [getAdHeight()] return the given ones; if it was
    left out, the unit is as it was. *)
Theorem initAd_throws_without_controls
    (width height viewMode desiredBitrate creativeData : JsVal)
    (environmentVars : option EnvironmentVars) (w : World) :
  outcome (getElement_ "eventSelect") w = Returned None →
  let call := initAd width height viewMode desiredBitrate creativeData
                environmentVars in
  outcome call w =
    Thrown (if initAd_refused environmentVars (page w)
            then HierarchyRequestError else TypeError) ∧
  calls (exec call w) = calls w ∧
  match environmentVars with
  | Some _ =>
      outcome getAdWidth (exec call w) = Returned width ∧
      outcome getAdHeight (exec call w) = Returned height ∧
      attr_read "viewMode" (attributes_ (ad (exec call w))) = viewMode ∧
      attr_read "desiredBitrate" (attributes_ (ad (exec call w))) =
        desiredBitrate
  | None => exec call w = w
  end.
Proof.
  intros Hnone. cbv zeta.
  assert (resolve "eventSelect" (page w) = None) as Hr.
  { unfold outcome in Hnone. rewrite getElement_spec in Hnone.
    injection Hnone as ->. reflexivity. }
  destruct environmentVars as [o|].
  2:{ unfold outcome, exec. rewrite initAd_without_environmentVars.
      repeat split. }
  pose proof (initAd_getters width height viewMode desiredBitrate
                creativeData o w) as (Hwidth & Hheight).
  pose proof (initAd_attributes width height viewMode desiredBitrate
                creativeData o w) as Hattrs.
  split; [|split; [|split; [exact Hwidth|split; [exact Hheight|]]]].
  - unfold outcome. rewrite initAd_unfold, initAd_tail_without_eventSelect
      by (rewrite initAd_stored_resolve; exact Hr).
    rewrite initAd_stored_refused. reflexivity.
  - unfold exec. rewrite initAd_unfold, initAd_tail_without_eventSelect
      by (rewrite initAd_stored_resolve; exact Hr).
    cbn [snd]. destruct (renderSlot__frame
                 (initAd_stored width height viewMode desiredBitrate o w))
      as (_ & _ & _ & _ & _ & ->). reflexivity.
  - rewrite Hattrs. split.
    + rewrite attr_read_set_ne, attr_read_set_eq by reflexivity. reflexivity.
    + apply attr_read_set_eq.
Qed.

Lemma initAd_throws_without_controls_witness :
  outcome scenario_initAd subscribed_on_blank_page = Thrown TypeError ∧
  calls (exec scenario_initAd subscribed_on_blank_page) = [] ∧
  outcome getAdWidth (exec scenario_initAd subscribed_on_blank_page) =
    Returned (JNum 300) ∧
  outcome getAdHeight (exec scenario_initAd subscribed_on_blank_page) =
    Returned (JNum 250).
Proof.
  destruct (initAd_throws_without_controls (JNum 300) (JNum 250) (JStr "normal")
              (JNum 256) (JObj 0) (Some scenario_env) subscribed_on_blank_page)
    as (Hout & Hcalls & Hw & Hh & _).
  { vm_compute. reflexivity. }
  split; [exact Hout|]. split; [exact Hcalls|]. split; [exact Hw | exact Hh].
Defined.

(** * More of the unit *)

(** ** The registry: [subscribe], [unsubscribe], [isEventSubscribed_] *)

(** X1.  [subscribe(f, name, ctx)] with a function [f] returns and stores
    [f] bound to [ctx] under [name], replacing whatever was there: afterwards
    [isEventSubscribed_(name)] is [true] and [name in eventCallbacks_] holds.
    Entries under other names, the attributes and the calls made are
    untouched. *)
Theorem subscribe_registers (f : Fn) (name : string) (ctx : JsVal) (w : World) :
  let w' := exec (subscribe (JFun f) name ctx) w in
  outcome (subscribe (JFun f) name ctx) w = Returned tt ∧
  eventCallbacks_ (ad w') !! name = Some (CbBound f ctx) ∧
  outcome (isEventSubscribed_ name) w' = Returned true ∧
  outcome (subscribed_in name) w' = Returned true ∧
  (∀ other, other ≠ name →
     eventCallbacks_ (ad w') !! other = eventCallbacks_ (ad w) !! other) ∧
  attributes_ (ad w') = attributes_ (ad w) ∧
  calls w' = calls w.
Proof.
  unfold outcome, exec, subscribe, js_bind. js_steps. simpl.
  unfold isEventSubscribed_, subscribed_in, bind, get_ad, ret. simpl.
  rewrite lookup_insert_eq. simpl.
  repeat split; try reflexivity.
  intros other Hne. apply lookup_insert_ne. congruence.
Qed.

Lemma subscribe_registers_witness :
  eventCallbacks_
    (ad (exec (subscribe (JFun recorder2) "AdPaused" JNull) expand_listener))
    !! "AdExpanded" = Some (CbBound recorder JNull).
Proof.
  destruct (subscribe_registers recorder2 "AdPaused" JNull expand_listener)
    as (_ & _ & _ & _ & H & _).
  rewrite H by discriminate. vm_compute. reflexivity.
Defined.

(** X2.  [subscribe] with a first argument that is not a function throws a
    [TypeError] (from [aCallback.bind]) and registers nothing: the unit and
    the calls made are as before; only the log line was written. *)
Theorem subscribe_rejects_non_function
    (aCallback : JsVal) (name : string) (ctx : JsVal) (w : World) :
  (∀ f, aCallback ≠ JFun f) →
  subscribe aCallback name ctx w =
    (Thrown TypeError,
     exec (log ("Subscribe " +:+ js_to_string aCallback)) w).
Proof.
  intros H. unfold subscribe, exec. js_steps. rewrite log_spec.
  destruct aCallback; try reflexivity. destruct (H f). reflexivity.
Qed.

Lemma subscribe_rejects_non_function_witness :
  outcome (subscribe JUndefined "AdLoaded" JNull) (fresh control_page) =
    Thrown TypeError ∧
  ad (exec (subscribe JUndefined "AdLoaded" JNull) (fresh control_page)) =
    getVPAIDAd.
Proof.
  pose proof (subscribe_rejects_non_function JUndefined "AdLoaded" JNull
                (fresh control_page)) as H.
  unfold outcome, exec. rewrite H by discriminate. split; reflexivity.
Defined.

(** X3.  [unsubscribe(name)] always returns and stores [null] under [name],
    whether or not anything was subscribed there: afterwards
    [isEventSubscribed_(name)] is [false] while [name in eventCallbacks_]
    is [true].  Entries under other names, the attributes and the calls made
    are untouched. *)
Theorem unsubscribe_stores_null (name : string) (w : World) :
  let w' := exec (unsubscribe name) w in
  outcome (unsubscribe name) w = Returned tt ∧
  eventCallbacks_ (ad w') !! name = Some CbNull ∧
  outcome (isEventSubscribed_ name) w' = Returned false ∧
  outcome (subscribed_in name) w' = Returned true ∧
  (∀ other, other ≠ name →
     eventCallbacks_ (ad w') !! other = eventCallbacks_ (ad w) !! other) ∧
  attributes_ (ad w') = attributes_ (ad w) ∧
  calls w' = calls w.
Proof.
  unfold outcome, exec, unsubscribe. js_steps. simpl.
  unfold isEventSubscribed_, subscribed_in, bind, get_ad, ret. simpl.
  rewrite lookup_insert_eq. simpl.
  repeat split; try reflexivity.
  intros other Hne. apply lookup_insert_ne. congruence.
Qed.

Lemma unsubscribe_stores_null_witness :
  eventCallbacks_ (ad (exec (unsubscribe "AdPaused") expand_listener))
    !! "AdExpanded" = Some (CbBound recorder JNull).
Proof.
  destruct (unsubscribe_stores_null "AdPaused" expand_listener)
    as (_ & _ & _ & _ & H & _).
  rewrite H by discriminate. vm_compute. reflexivity.
Defined.

(** ** Elements of the page: [getElement_], [log] *)

Lemma resolve_cases id r p :
  resolve id p = Some r →
  (r = InDocument id ∧ is_Some (document p !! id)) ∨
  (r = InParent id ∧ document p !! id = None ∧
   ∃ d, parent p = ParentFriendly d ∧ is_Some (d !! id)).
Proof.
  unfold resolve. destruct (document p !! id) as [e|] eqn:E.
  - intros [= <-]. left. split; [reflexivity | eexists; reflexivity].
  - destruct (parent p) as [|d|] eqn:Ep; try discriminate.
    destruct (d !! id) as [e|] eqn:Ed; try discriminate.
    intros [= <-]. right. split; [reflexivity|]. split; [reflexivity|].
    exists d. split; [reflexivity | eexists; exact Ed].
Qed.

(** Writing to the element found under [id] changes that element and no
    other. *)
Lemma element_at_update id r f p key :
  resolve id p = Some r →
  element_at key (page_update r f p) =
  if decide (key = id) then f <$> element_at key p else element_at key p.
Proof.
  intros Hr. unfold element_at. rewrite resolve_page_update.
  destruct (resolve_cases id r p Hr)
    as [(-> & Hdoc) | (-> & Hdoc & d & Hpar & Hd)].
  - unfold resolve, page_update, page_lookup. simpl.
    destruct (decide (key = id)) as [->|Hne].
    + destruct Hdoc as [e He]. rewrite He. simpl.
      rewrite lookup_alter_eq, He. reflexivity.
    + destruct (document p !! key) eqn:E.
      * simpl. rewrite lookup_alter_ne, E by congruence. reflexivity.
      * destruct (parent p) as [|d|]; try reflexivity.
        destruct (d !! key); reflexivity.
  - unfold resolve, page_update, page_lookup. rewrite Hpar. simpl.
    destruct (decide (key = id)) as [->|Hne].
    + rewrite Hdoc. destruct Hd as [e He]. rewrite He. simpl.
      rewrite lookup_alter_eq, He. reflexivity.
    + destruct (document p !! key) eqn:E; [reflexivity|].
      destruct (d !! key) eqn:E'; [|reflexivity].
      simpl. rewrite lookup_alter_ne, E' by congruence. reflexivity.
Qed.

Lemma element_at_resolve key p :
  is_Some (element_at key p) ↔ is_Some (resolve key p).
Proof.
  unfold element_at. split.
  - destruct (resolve key p); [eexists; reflexivity | intros [e [=]]].
  - intros [r Hr]. rewrite Hr.
    destruct (resolve_cases key r p Hr)
      as [(-> & Hdoc) | (-> & Hdoc & d & Hpar & Hd)]; simpl.
    + exact Hdoc.
    + rewrite Hpar. exact Hd.
Qed.

(** X4.  [getElement_(key)] never throws and changes nothing.  It returns
    the element of the unit's own document when there is one, in preference
    to the parent's; otherwise the element of a same-origin parent's
    document; and [null] when neither has one or the parent is cross-origin
    (the access error is caught). *)
Theorem getElement__lookup_order (key : string) (w : World) :
  exec (getElement_ key) w = w ∧
  (∃ r, outcome (getElement_ key) w = Returned r) ∧
  (is_Some (document (page w) !! key) →
   outcome (getElement_ key) w = Returned (Some (InDocument key))) ∧
  (document (page w) !! key = None →
   match parent (page w) with
   | ParentFriendly d =>
       outcome (getElement_ key) w =
       Returned (match d !! key with
                 | Some _ => Some (InParent key)
                 | None => None
                 end)
   | ParentSelf | ParentCrossOrigin =>
       outcome (getElement_ key) w = Returned None
   end).
Proof.
  unfold exec, outcome. rewrite getElement_spec. simpl. unfold resolve.
  split; [reflexivity|]. split; [eexists; reflexivity|]. split.
  - intros [e ->]. reflexivity.
  - intros ->. destruct (parent (page w)); reflexivity.
Qed.

Lemma getElement__lookup_order_witness :
  outcome (getElement_ "adErrorMsg") (fresh framed_page) =
    Returned (Some (InDocument "adErrorMsg")) ∧
  outcome (getElement_ "lastVpaidEvent") (fresh framed_page) =
    Returned (Some (InParent "lastVpaidEvent")) ∧
  outcome (getElement_ "lastVpaidEvent") (fresh sandboxed_page) = Returned None.
Proof.
  destruct (getElement__lookup_order "adErrorMsg" (fresh framed_page))
    as (_ & _ & H1 & _).
  destruct (getElement__lookup_order "lastVpaidEvent" (fresh framed_page))
    as (_ & _ & _ & H2).
  destruct (getElement__lookup_order "lastVpaidEvent" (fresh sandboxed_page))
    as (_ & _ & _ & H3).
  split; [apply H1; vm_compute; eexists; reflexivity|].
  split; [apply H2; vm_compute; reflexivity | apply H3; vm_compute; reflexivity].
Defined.

(** X5.  [log(message)] never throws, on any page.  It sets the [value] of
    the element [getElement_("lastVpaidEvent")] finds, when there is one, to
    [message]; every other element, the body, the scroll listeners, the unit
    and the calls made are as before. *)
Theorem log_writes_only_the_sink (message : string) (w : World) :
  let w' := exec (log message) w in
  outcome (log message) w = Returned tt ∧
  ad w' = ad w ∧ calls w' = calls w ∧
  body (page w') = body (page w) ∧
  scroll_listeners (page w') = scroll_listeners (page w) ∧
  element_at "lastVpaidEvent" (page w') =
    set_value message <$> element_at "lastVpaidEvent" (page w) ∧
  (∀ key, key ≠ "lastVpaidEvent" →
     element_at key (page w') = element_at key (page w)).
Proof.
  unfold outcome, exec. rewrite log_spec. simpl. unfold log_page.
  destruct (resolve "lastVpaidEvent" (page w)) as [r|] eqn:Hr.
  - repeat split; try reflexivity.
    + destruct r; simpl; [reflexivity|]. destruct (parent (page w)); reflexivity.
    + destruct r; simpl; [reflexivity|]. destruct (parent (page w)); reflexivity.
    + rewrite (element_at_update _ _ _ _ _ Hr). rewrite decide_True; reflexivity.
    + intros key Hne. rewrite (element_at_update _ _ _ _ _ Hr).
      rewrite decide_False; [reflexivity | exact Hne].
  - repeat split; try reflexivity.
    unfold element_at. rewrite Hr. reflexivity.
Qed.

Lemma log_writes_only_the_sink_witness :
  element_at "adErrorMsg" (page (exec (log "hello") (fresh framed_page))) =
    Some (set_value "inner" (createElement "input")) ∧
  value <$> element_at "lastVpaidEvent"
              (page (exec (log "hello") (fresh framed_page))) = Some "hello".
Proof.
  destruct (log_writes_only_the_sink "hello" (fresh framed_page))
    as (_ & _ & _ & _ & _ & H1 & H2).
  split.
  - rewrite H2 by discriminate. vm_compute. reflexivity.
  - rewrite H1. vm_compute. reflexivity.
Defined.

(** ** The slot and the controls: [renderSlot_], [addButtonListeners_],
    [fillProperties_], [setupScrollListener_] *)



(** Stepping through the element lookups of a method body. *)
Lemma bind_getElement_ {B} key (k : option ElemRef → M B) w :
  bind (getElement_ key) k w = k (resolve key (page w)) w.
Proof. unfold bind. rewrite getElement_spec. reflexivity. Qed.

Lemma bind_get_ad {B} (k : VpaidAd → M B) w : bind get_ad k w = k (ad w) w.
Proof. reflexivity. Qed.

Lemma bind_on_element_found {B} r f (k : unit → M B) w :
  bind (on_element (Some r) f) k w =
  k tt {| ad := ad w; page := page_update r f (page w); calls := calls w |}.
Proof. reflexivity. Qed.

Lemma bind_on_element_null {B} f (k : unit → M B) w :
  bind (on_element None f) k w = (Thrown TypeError, w).
Proof. reflexivity. Qed.

Lemma bind_value_of_found {B} r (k : string → M B) w :
  bind (value_of (Some r)) k w =
  k (default "" (value <$> page_lookup r (page w))) w.
Proof. reflexivity. Qed.

Lemma bind_value_of_null {B} (k : string → M B) w :
  bind (value_of None) k w = (Thrown TypeError, w).
Proof. reflexivity. Qed.

Ltac dom_steps :=
  repeat (first [ rewrite bind_assoc | rewrite bind_log
                | rewrite bind_getElement_ | rewrite bind_get_ad
                | rewrite bind_modify_ad | rewrite bind_ret
                | rewrite bind_on_element_found | rewrite bind_on_element_null
                | rewrite bind_value_of_found | rewrite bind_value_of_null ];
          cbn [ad page calls]);
  cbv beta.

(** What [addButtonListeners_] does, by the elements the page has. *)
Lemma addButtonListeners__spec w :
  addButtonListeners_ w =
  match resolve "eventSelect" (page w) with
  | None => (Thrown TypeError, w)
  | Some r1 =>
      let p1 := page_update r1 (addEventListener "change" eventSelected_L)
                  (page w) in
      match resolve "triggerEvent" (page w) with
      | None => (Thrown TypeError, {| ad := ad w; page := p1; calls := calls w |})
      | Some r2 =>
          (Returned tt,
           {| ad := ad w;
              page := page_update r2 (addEventListener "click" triggerEvent_L) p1;
              calls := calls w |})
      end
  end.
Proof.
  unfold addButtonListeners_. rewrite bind_getElement_.
  destruct (resolve "eventSelect" (page w)) as [r1|]; [|reflexivity].
  rewrite bind_on_element_found, bind_getElement_. cbn [page].
  rewrite resolve_page_update.
  destruct (resolve "triggerEvent" (page w)) as [r2|]; reflexivity.
Qed.

(** X7.  [addButtonListeners_] adds a ["change"] listener to the
    [eventSelect] element and a ["click"] listener to the [triggerEvent]
    element, after the listeners they already have, and touches no other
    element.  Without an [eventSelect] element it throws a [TypeError] and
    changes nothing; with [eventSelect] but no [triggerEvent] it throws a
    [TypeError] after the first listener was added.  The unit and the calls
    made are as before in every case. *)
Theorem addButtonListeners__wires_or_throws (w : World) :
  let w' := exec addButtonListeners_ w in
  let wired := addEventListener "change" eventSelected_L in
  (ad w' = ad w ∧ calls w' = calls w) ∧
  (element_at "eventSelect" (page w) = None →
   addButtonListeners_ w = (Thrown TypeError, w)) ∧
  (is_Some (element_at "eventSelect" (page w)) →
   element_at "eventSelect" (page w') =
     wired <$> element_at "eventSelect" (page w) ∧
   (element_at "triggerEvent" (page w) = None →
    outcome addButtonListeners_ w = Thrown TypeError) ∧
   (is_Some (element_at "triggerEvent" (page w)) →
    outcome addButtonListeners_ w = Returned tt ∧
    element_at "triggerEvent" (page w') =
      addEventListener "click" triggerEvent_L
        <$> element_at "triggerEvent" (page w)) ∧
   (∀ key, key ≠ "eventSelect" → key ≠ "triggerEvent" →
      element_at key (page w') = element_at key (page w))).
Proof.
  unfold outcome, exec. rewrite addButtonListeners__spec.
  destruct (resolve "eventSelect" (page w)) as [r1|] eqn:H1.
  - assert (is_Some (element_at "eventSelect" (page w))) as Hfound
      by (apply element_at_resolve; eexists; exact H1).
    destruct (resolve "triggerEvent" (page w)) as [r2|] eqn:H2; cbv zeta.
    + assert (resolve "triggerEvent"
                (page_update r1 (addEventListener "change" eventSelected_L)
                   (page w)) = Some r2) as H2'
        by (rewrite resolve_page_update; exact H2).
      assert (is_Some (element_at "triggerEvent" (page w))) as Hfound2
        by (apply element_at_resolve; eexists; exact H2).
      cbn [fst snd ad page calls].
      split; [split; reflexivity|]. split.
      { intros H. rewrite H in Hfound. destruct Hfound as [? [=]]. }
      intros _. split; [|split; [|split]].
      * rewrite (element_at_update _ _ _ _ _ H2'), decide_False by discriminate.
        rewrite (element_at_update _ _ _ _ _ H1), decide_True; reflexivity.
      * intros H. rewrite H in Hfound2. destruct Hfound2 as [? [=]].
      * intros _. split; [reflexivity|].
        rewrite (element_at_update _ _ _ _ _ H2'), decide_True by reflexivity.
        rewrite (element_at_update _ _ _ _ _ H1), decide_False by discriminate.
        reflexivity.
      * intros key Hk1 Hk2.
        rewrite (element_at_update _ _ _ _ _ H2'), decide_False by exact Hk2.
        rewrite (element_at_update _ _ _ _ _ H1), decide_False by exact Hk1.
        reflexivity.
    + cbn [fst snd ad page calls].
      split; [split; reflexivity|]. split.
      { intros H. rewrite H in Hfound. destruct Hfound as [? [=]]. }
      intros _. split; [|split; [|split]].
      * rewrite (element_at_update _ _ _ _ _ H1), decide_True; reflexivity.
      * reflexivity.
      * intros H. apply element_at_resolve in H. rewrite H2 in H.
        destruct H as [? [=]].
      * intros key Hk1 Hk2.
        rewrite (element_at_update _ _ _ _ _ H1), decide_False by exact Hk1.
        reflexivity.
  - split; [split; reflexivity|]. split; [reflexivity|].
    intros H. apply element_at_resolve in H. rewrite H1 in H.
    destruct H as [? [=]].
Qed.

Lemma addButtonListeners__wires_or_throws_witness :
  addButtonListeners_ (fresh blank_page) = (Thrown TypeError, fresh blank_page) ∧
  (outcome addButtonListeners_ (fresh half_wired_page) = Thrown TypeError ∧
   listeners <$> element_at "eventSelect"
                   (page (exec addButtonListeners_ (fresh half_wired_page))) =
     Some [("change", eventSelected_L)]) ∧
  listeners <$> element_at "triggerEvent"
      (page (exec addButtonListeners_
               (exec addButtonListeners_ (fresh control_page)))) =
    Some [("click", triggerEvent_L); ("click", triggerEvent_L)].
Proof.
  destruct (addButtonListeners__wires_or_throws (fresh blank_page))
    as (_ & H1 & _).
  destruct (addButtonListeners__wires_or_throws (fresh half_wired_page))
    as (_ & _ & H2).
  destruct (addButtonListeners__wires_or_throws
              (exec addButtonListeners_ (fresh control_page)))
    as (_ & _ & H3).
  split; [apply H1; vm_compute; reflexivity|]. split.
  - destruct H2 as (H2a & H2b & _); [vm_compute; eexists; reflexivity|].
    split; [apply H2b; vm_compute; reflexivity|].
    rewrite H2a. vm_compute. reflexivity.
  - destruct H3 as (_ & _ & H3 & _); [vm_compute; eexists; reflexivity|].
    destruct H3 as (_ & H3); [vm_compute; eexists; reflexivity|].
    rewrite H3. vm_compute. reflexivity.
Defined.

(** The loop of [fillProperties_] over keys whose elements are all there. *)
Lemma fillProperties_loop_spec keys w :
  (∀ key, key ∈ keys → is_Some (resolve key (page w))) →
  ∃ p',
    fillProperties_loop keys w =
      (Returned tt, {| ad := ad w; page := p'; calls := calls w |}) ∧
    (∀ key, resolve key p' = resolve key (page w)) ∧
    (body p' = body (page w) ∧ scroll_listeners p' = scroll_listeners (page w)) ∧
    ∀ key,
      element_at key p' =
      if decide (key ∈ keys) then
        set_textContent (dom_string (attr_read key (attributes_ (ad w))))
          <$> element_at key (page w)
      else element_at key (page w).
Proof.
  revert w. induction keys as [|k keys IH]; intros w Hkeys.
  - exists (page w). split; [destruct w; reflexivity|].
    split; [reflexivity|]. split; [split; reflexivity|].
    intros key. rewrite decide_False; [reflexivity | apply not_elem_of_nil].
  - destruct (Hkeys k) as [r Hr]; [left|].
    cbn [fillProperties_loop].
    rewrite bind_getElement_, Hr, bind_get_ad, bind_on_element_found.
    set (f := set_textContent (dom_string (attr_read k (attributes_ (ad w))))).
    destruct (IH {| ad := ad w; page := page_update r f (page w);
                    calls := calls w |}) as (p' & E & Hres & (Hb & Hs) & Hel).
    { intros key Hin. cbn [page]. rewrite resolve_page_update.
      apply Hkeys. right. exact Hin. }
    exists p'. split; [exact E|]. cbn [ad page calls] in *. split.
    { intros key. rewrite Hres. apply resolve_page_update. }
    split.
    { rewrite Hb, Hs. destruct r; simpl; [split; reflexivity|].
      destruct (parent (page w)); split; reflexivity. }
    intros key. rewrite Hel, (element_at_update _ _ _ _ _ Hr).
    destruct (decide (key = k)) as [->|Hne].
    + rewrite (decide_True (P := k ∈ k :: keys)) by left.
      destruct (decide (k ∈ keys)); [|reflexivity].
      destruct (element_at k (page w)); reflexivity.
    + destruct (decide (key ∈ keys)) as [Hin|Hnin].
      * rewrite decide_True by (right; exact Hin). reflexivity.
      * rewrite decide_False; [reflexivity|].
        intros [->|Hin]%elem_of_cons; [destruct Hne; reflexivity | exact (Hnin Hin)].
Qed.

(** The loop throws at the first key without an element. *)
Lemma fillProperties_loop_missing keys w :
  (∃ key, key ∈ keys ∧ resolve key (page w) = None) →
  outcome (fillProperties_loop keys) w = Thrown TypeError.
Proof.
  revert w. induction keys as [|k keys IH]; intros w (key & Hin & Hnone).
  - inversion Hin.
  - unfold outcome. simpl. rewrite bind_getElement_.
    destruct (resolve k (page w)) as [r|] eqn:Hr.
    + rewrite bind_get_ad, bind_on_element_found. apply IH.
      exists key. simpl. rewrite resolve_page_update. split; [|exact Hnone].
      apply elem_of_cons in Hin as [->|Hin]; [congruence | exact Hin].
    + reflexivity.
Qed.

(** X8.  [fillProperties_] writes, for every key of [attributes_], the
    attribute's value as text into the element with that id, and touches no
    other element; [null] and [undefined] are written as the empty string.
    It needs an element for every key: when all are there it returns, and
    when one is missing it throws a [TypeError].  The unit and the calls made
    are as before. *)
Theorem fillProperties__shows_attributes (w : World) :
  let w' := exec fillProperties_ w in
  let keys := attr_keys (attributes_ (ad w)) in
  (ad w' = ad w ∧ calls w' = calls w) ∧
  (Forall (λ key, finds key w) keys →
   outcome fillProperties_ w = Returned tt ∧
   (∀ key, key ∈ keys →
      textContent <$> element_at key (page w') =
      Some (dom_string (attr_read key (attributes_ (ad w))))) ∧
   (∀ key, key ∉ keys → element_at key (page w') = element_at key (page w))) ∧
  (Exists (λ key, ¬ finds key w) keys →
   outcome fillProperties_ w = Thrown TypeError).
Proof.
  cbv zeta. split; [|split].
  - split.
    + apply (preserves_fillProperties_ (λ a _, a = ad w) w). reflexivity.
    + apply (preserves_fillProperties_ (λ _ c, c = calls w) w). reflexivity.
  - intros Hall.
    destruct (fillProperties_loop_spec (attr_keys (attributes_ (ad w))) w)
      as (p' & E & _ & _ & Hel).
    { intros key Hin. apply finds_resolve. rewrite Forall_forall in Hall.
      apply Hall, Hin. }
    unfold outcome, exec, fillProperties_. rewrite bind_get_ad, E. simpl.
    split; [reflexivity|]. split.
    + intros key Hin. rewrite Hel, decide_True by exact Hin.
      rewrite Forall_forall in Hall. apply Hall, finds_resolve in Hin.
      apply element_at_resolve in Hin as [e He]. rewrite He. reflexivity.
    + intros key Hnin. rewrite Hel, decide_False by exact Hnin. reflexivity.
  - intros Hex. unfold outcome, fillProperties_. rewrite bind_get_ad.
    apply fillProperties_loop_missing.
    apply Exists_exists in Hex as (key & Hin & Hnot).
    exists key. split; [exact Hin|].
    destruct (resolve key (page w)) eqn:Hr; [|reflexivity].
    destruct Hnot. apply finds_resolve. eexists; exact Hr.
Qed.

Lemma fillProperties__shows_attributes_witness :
  textContent <$> element_at "volume" (page (exec fillProperties_ louder)) =
    Some "80" ∧
  outcome fillProperties_ (fresh blank_page) = Thrown TypeError.
Proof.
  destruct (fillProperties__shows_attributes louder) as (_ & H1 & _).
  destruct (fillProperties__shows_attributes (fresh blank_page)) as (_ & _ & H2).
  split.
  - destruct H1 as (_ & H1 & _).
    { repeat constructor; eexists; vm_compute; reflexivity. }
    rewrite (H1 "volume"); [vm_compute; reflexivity|].
    vm_compute. repeat first [apply list_elem_of_here | apply list_elem_of_further].
  - apply H2. apply Exists_cons_hd. intros [r Hr]. vm_compute in Hr. discriminate.
Defined.

(** X9.  [setupScrollListener_] never throws: addressed to a cross-origin
    parent, the listener registration fails and the error is swallowed, so
    nothing is added; otherwise one scroll listener is appended after those
    already there (a second call adds a second one).  Nothing else
    changes. *)
Theorem setupScrollListener__swallows_errors (w : World) :
  let w' := exec setupScrollListener_ w in
  outcome setupScrollListener_ w = Returned tt ∧
  ad w' = ad w ∧ calls w' = calls w ∧
  document (page w') = document (page w) ∧
  parent (page w') = parent (page w) ∧
  body (page w') = body (page w) ∧
  scroll_listeners (page w') =
    match parent (page w) with
    | ParentCrossOrigin => scroll_listeners (page w)
    | _ => scroll_listeners (page w) ++ [logPercentVisible_L]
    end.
Proof.
  unfold outcome, exec, setupScrollListener_, try_catch,
    parent_addEventListener, bind, get_page, modify_page, throw, ret.
  simpl. destruct (parent (page w)) eqn:E; simpl; rewrite ?E; repeat split.
Qed.

(** ** The operator's controls: the four handlers, [triggerEvent_],
    [eventSelected_] *)

Lemma element_at_lookup key p e :
  element_at key p = Some e →
  ∃ r, resolve key p = Some r ∧ page_lookup r p = Some e.
Proof.
  unfold element_at. destruct (resolve key p) as [r|]; [|discriminate].
  intros H. exists r. split; [reflexivity | exact H].
Qed.

Lemma element_at_missing key p : element_at key p = None → resolve key p = None.
Proof.
  intros H. destruct (resolve key p) as [r|] eqn:Hr; [|reflexivity].
  assert (is_Some (element_at key p)) as [el Hel]
    by (apply element_at_resolve; eexists; exact Hr).
  congruence.
Qed.

Lemma isEventSubscribed__spec {B} name (k : bool → M B) w :
  bind (isEventSubscribed_ name) k w =
  k (match eventCallbacks_ (ad w) !! name with
     | Some (CbBound _ _) => true
     | _ => false
     end) w.
Proof. reflexivity. Qed.

(** X10.  Each of the four operator-triggered handlers, when no function is
    stored under its event name (nothing was subscribed, or it was
    unsubscribed), writes its own message to the log and does nothing else:
    it returns, calls nothing and reads no input element.  The message of
    the error handler alone has no ["Error: "] prefix. *)
Theorem interactive_handlers_unsubscribed (w : World) :
  let unsubscribed name :=
    ∀ f this, eventCallbacks_ (ad w) !! name ≠ Some (CbBound f this) in
  (unsubscribed "AdClickThru" →
   adClickThruHandler_ w =
     log "Error: AdClickThru function callback not subscribed." w) ∧
  (unsubscribed "AdError" →
   adErrorHandler_ w = log "AdError function callback not subscribed." w) ∧
  (unsubscribed "AdLog" →
   adLogHandler_ w = log "Error: AdLog function callback not subscribed." w) ∧
  (unsubscribed "AdInteraction" →
   adInteractionHandler_ w =
     log "Error: AdInteraction function callback not subscribed." w) ∧
  (∀ message,
     outcome (log message) w = Returned tt ∧
     ad (exec (log message) w) = ad w ∧
     calls (exec (log message) w) = calls w).
Proof.
  cbv zeta.
  unfold adClickThruHandler_, adErrorHandler_, adLogHandler_,
    adInteractionHandler_.
  rewrite !isEventSubscribed__spec.
  repeat split;
    try (intros H;
         match goal with
         | |- context [eventCallbacks_ (ad w) !! ?name] =>
             destruct (eventCallbacks_ (ad w) !! name) as [[|f this]|] eqn:E;
             [reflexivity | destruct (H f this); reflexivity | reflexivity]
         end);
    unfold outcome, exec; rewrite log_spec; reflexivity.
Qed.

Lemma interactive_handlers_unsubscribed_witness :
  outcome adErrorHandler_ (exec (unsubscribe "AdError") (fresh control_page)) =
    Returned tt ∧
  value <$> element_at "lastVpaidEvent" (page (exec adLogHandler_ (fresh control_page)))
    = Some "Error: AdLog function callback not subscribed.".
Proof.
  destruct (interactive_handlers_unsubscribed
              (exec (unsubscribe "AdError") (fresh control_page)))
    as (_ & H1 & _).
  destruct (interactive_handlers_unsubscribed (fresh control_page))
    as (_ & _ & H2 & _).
  split.
  - unfold outcome. rewrite H1; [vm_compute; reflexivity|].
    intros f this. vm_compute. discriminate.
  - unfold exec. rewrite H2; [vm_compute; reflexivity|].
    intros f this. vm_compute. discriminate.
Defined.

(** X11.  With a function subscribed under ["AdClickThru"],
    [adClickThruHandler_] reads the values of the three inputs and calls the
    function exactly once with them, in the order url, id, player handles;
    before the call it writes them to the log.  If one of the three inputs is
    missing from the page it throws a [TypeError] with nothing called and
    nothing written. *)
Theorem adClickThruHandler__passes_inputs (w : World) (f : Fn) (this : JsVal) :
  eventCallbacks_ (ad w) !! "AdClickThru" = Some (CbBound f this) →
  (∀ url id handles,
     element_at "clickThruUrl" (page w) = Some url →
     element_at "clickThruId" (page w) = Some id →
     element_at "clickThruPlayerHandels" (page w) = Some handles →
     adClickThruHandler_ w =
       (Returned tt,
        {| ad := ad w;
           page := page (exec (log ("AdClickThu(" +:+ value url +:+ "," +:+
                                    value id +:+ "," +:+ value handles +:+ ")"))
                           w);
           calls := calls w ++
                    [Invoke f this
                       [JStr (value url); JStr (value id);
                        JStr (value handles)]] |})) ∧
  (element_at "clickThruUrl" (page w) = None ∨
   element_at "clickThruId" (page w) = None ∨
   element_at "clickThruPlayerHandels" (page w) = None →
   adClickThruHandler_ w = (Thrown TypeError, w)).
Proof.
  intros Hcb. unfold adClickThruHandler_.
  rewrite isEventSubscribed__spec, Hcb. cbn [negb]. split.
  - intros url id handles Hu Hi Hh.
    apply element_at_lookup in Hu as (ru & Hru & Hlu).
    apply element_at_lookup in Hi as (ri & Hri & Hli).
    apply element_at_lookup in Hh as (rh & Hrh & Hlh).
    rewrite bind_getElement_, Hru, bind_value_of_found, Hlu.
    rewrite bind_getElement_, Hri, bind_value_of_found, Hli.
    rewrite bind_getElement_, Hrh, bind_value_of_found, Hlh.
    cbn [default fmap option_fmap option_map].
    rewrite bind_log, call_callback_spec. cbn [ad logged]. rewrite Hcb.
    unfold exec. rewrite log_spec. reflexivity.
  - intros H.
    rewrite bind_getElement_.
    destruct (resolve "clickThruUrl" (page w)) as [ru|] eqn:Hru; [|reflexivity].
    rewrite bind_value_of_found, bind_getElement_.
    destruct (resolve "clickThruId" (page w)) as [ri|] eqn:Hri; [|reflexivity].
    rewrite bind_value_of_found, bind_getElement_.
    destruct (resolve "clickThruPlayerHandels" (page w)) as [rh|] eqn:Hrh;
      [|reflexivity].
    destruct H as [H|[H|H]]; apply element_at_missing in H; congruence.
Qed.

Lemma adClickThruHandler__passes_inputs_witness :
  calls (exec adClickThruHandler_ (operator_world "AdClickThru" "AdClickThru")) =
    [Invoke recorder JNull
       [JStr "http://example.com"; JStr "7"; JStr "false"]] ∧
  adClickThruHandler_ (exec (subscribe (JFun recorder) "AdClickThru" JNull)
                         (fresh blank_page)) =
    (Thrown TypeError,
     exec (subscribe (JFun recorder) "AdClickThru" JNull) (fresh blank_page)).
Proof.
  destruct (adClickThruHandler__passes_inputs
              (operator_world "AdClickThru" "AdClickThru") recorder JNull)
    as (H1 & _); [vm_compute; reflexivity|].
  destruct (adClickThruHandler__passes_inputs
              (exec (subscribe (JFun recorder) "AdClickThru" JNull)
                 (fresh blank_page)) recorder JNull)
    as (_ & H2); [vm_compute; reflexivity|].
  split.
  - unfold exec at 1. erewrite H1 by (vm_compute; reflexivity).
    vm_compute. reflexivity.
  - apply H2. left. vm_compute. reflexivity.
Defined.

(** The shape the three one-input handlers share. *)
Lemma one_input_handler_spec name complaint input prefix w f this :
  eventCallbacks_ (ad w) !! name = Some (CbBound f this) →
  let handler :=
    (subscribed <- isEventSubscribed_ name ;;
     if negb subscribed then log complaint
     else
       e <- getElement_ input ;;
       text <- value_of e ;;
       log (prefix +:+ text +:+ ")") ;;
       call_callback name [JStr text]) in
  (∀ el, element_at input (page w) = Some el →
     handler w =
       (Returned tt,
        {| ad := ad w;
           page := page (exec (log (prefix +:+ value el +:+ ")")) w);
           calls := calls w ++ [Invoke f this [JStr (value el)]] |})) ∧
  (element_at input (page w) = None → handler w = (Thrown TypeError, w)).
Proof.
  intros Hcb. cbv zeta. rewrite isEventSubscribed__spec, Hcb. cbn [negb].
  rewrite bind_getElement_. split.
  - intros el Hel. apply element_at_lookup in Hel as (r & Hr & Hl).
    rewrite Hr, bind_value_of_found, Hl.
    cbn [default fmap option_fmap option_map].
    rewrite bind_log, call_callback_spec. cbn [ad logged]. rewrite Hcb.
    unfold exec. rewrite log_spec. reflexivity.
  - intros H. apply element_at_missing in H. rewrite H. reflexivity.
Qed.

(** X12.  With a function subscribed under its event name, each of
    [adErrorHandler_], [adLogHandler_] and [adInteractionHandler_] reads its
    one input ([adErrorMsg], [adLogMsg], [adInteractionId]) and calls the
    function exactly once with that text as the only argument, after logging
    it; the interaction handler logs under the prefix ["adLog("], as the log
    handler does.  Without the input element the handler throws a
    [TypeError], with nothing called and nothing written. *)
Theorem one_input_handlers_pass_input (w : World) (f : Fn) (this : JsVal) :
  let result prefix (el : Element) :=
    (Returned tt,
     {| ad := ad w;
        page := page (exec (log (prefix +:+ value el +:+ ")")) w);
        calls := calls w ++ [Invoke f this [JStr (value el)]] |}) in
  (eventCallbacks_ (ad w) !! "AdError" = Some (CbBound f this) →
   (∀ el, element_at "adErrorMsg" (page w) = Some el →
      adErrorHandler_ w = result "adError(" el) ∧
   (element_at "adErrorMsg" (page w) = None →
    adErrorHandler_ w = (Thrown TypeError, w))) ∧
  (eventCallbacks_ (ad w) !! "AdLog" = Some (CbBound f this) →
   (∀ el, element_at "adLogMsg" (page w) = Some el →
      adLogHandler_ w = result "adLog(" el) ∧
   (element_at "adLogMsg" (page w) = None →
    adLogHandler_ w = (Thrown TypeError, w))) ∧
  (eventCallbacks_ (ad w) !! "AdInteraction" = Some (CbBound f this) →
   (∀ el, element_at "adInteractionId" (page w) = Some el →
      adInteractionHandler_ w = result "adLog(" el) ∧
   (element_at "adInteractionId" (page w) = None →
    adInteractionHandler_ w = (Thrown TypeError, w))).
Proof.
  cbv zeta. split; [|split]; intros Hcb.
  - exact (one_input_handler_spec "AdError"
             "AdError function callback not subscribed." "adErrorMsg"
             "adError(" w f this Hcb).
  - exact (one_input_handler_spec "AdLog"
             "Error: AdLog function callback not subscribed." "adLogMsg"
             "adLog(" w f this Hcb).
  - exact (one_input_handler_spec "AdInteraction"
             "Error: AdInteraction function callback not subscribed."
             "adInteractionId" "adLog(" w f this Hcb).
Qed.

Lemma one_input_handlers_pass_input_witness :
  calls (exec adErrorHandler_ (operator_world "AdError" "AdError")) =
    [Invoke recorder JNull [JStr "boom"]] ∧
  value <$> element_at "lastVpaidEvent"
              (page (exec adInteractionHandler_
                       (operator_world "AdInteraction" "AdInteraction"))) =
    Some "adLog(42)".
Proof.
  destruct (one_input_handlers_pass_input
              (operator_world "AdError" "AdError") recorder JNull)
    as (H1 & _).
  destruct (one_input_handlers_pass_input
              (operator_world "AdInteraction" "AdInteraction") recorder JNull)
    as (_ & _ & H2).
  destruct H1 as (H1 & _); [vm_compute; reflexivity|].
  destruct H2 as (H2 & _); [vm_compute; reflexivity|].
  split.
  - unfold exec at 1. erewrite H1 by (vm_compute; reflexivity).
    vm_compute. reflexivity.
  - unfold exec at 1. erewrite H2 by (vm_compute; reflexivity).
    vm_compute. reflexivity.
Defined.

(** X13.  [triggerEvent_] reads the selected event name from [eventSelect].
    Without that element it throws a [TypeError] and changes nothing.  For
    the four names with inputs it runs the matching handler.  For any other
    name it calls the entry stored under exactly that name, once and with no
    argument, without logging; with nothing stored under the name it does
    nothing at all, and with the [null] left by [unsubscribe] it throws a
    [TypeError]. *)
Theorem triggerEvent__dispatch (w : World) :
  (element_at "eventSelect" (page w) = None →
   triggerEvent_ w = (Thrown TypeError, w)) ∧
  (∀ el, element_at "eventSelect" (page w) = Some el →
     (value el = "AdClickThru" → triggerEvent_ w = adClickThruHandler_ w) ∧
     (value el = "AdError" → triggerEvent_ w = adErrorHandler_ w) ∧
     (value el = "AdLog" → triggerEvent_ w = adLogHandler_ w) ∧
     (value el = "AdInteraction" → triggerEvent_ w = adInteractionHandler_ w) ∧
     (value el ∉ ["AdClickThru"; "AdError"; "AdLog"; "AdInteraction"] →
      triggerEvent_ w =
        match eventCallbacks_ (ad w) !! value el with
        | Some (CbBound f this) =>
            (Returned tt,
             {| ad := ad w; page := page w;
                calls := calls w ++ [Invoke f this []] |})
        | Some CbNull => (Thrown TypeError, w)
        | None => (Returned tt, w)
        end)).
Proof.
  unfold triggerEvent_. rewrite bind_getElement_. split.
  - intros H. apply element_at_missing in H. rewrite H. reflexivity.
  - intros el Hel. apply element_at_lookup in Hel as (r & Hr & Hl).
    rewrite Hr, bind_value_of_found, Hl.
    change (default "" (value <$> Some el)) with (value el).
    repeat split.
    + intros ->. reflexivity.
    + intros ->. reflexivity.
    + intros ->. reflexivity.
    + intros ->. reflexivity.
    + intros Hother.
      rewrite !not_elem_of_cons in Hother.
      destruct Hother as (H1 & H2 & H3 & H4 & _).
      apply String.eqb_neq in H1, H2, H3, H4. rewrite H1, H2, H3, H4.
      rewrite guarded_call_spec.
      destruct (eventCallbacks_ (ad w) !! value el) as [[|f this]|]; reflexivity.
Qed.

Lemma triggerEvent__dispatch_witness :
  calls (exec triggerEvent_ (operator_world "AdImpression" "AdImpression")) =
    [Invoke recorder JNull []] ∧
  calls (exec triggerEvent_ (operator_world "AdError" "AdError")) =
    [Invoke recorder JNull [JStr "boom"]] ∧
  triggerEvent_ (operator_world "AdImpression" "AdVideoStart") =
    (Returned tt, operator_world "AdImpression" "AdVideoStart") ∧
  triggerEvent_ (fresh blank_page) = (Thrown TypeError, fresh blank_page).
Proof.
  destruct (triggerEvent__dispatch (operator_world "AdImpression" "AdImpression"))
    as (_ & H1).
  destruct (triggerEvent__dispatch (operator_world "AdError" "AdError"))
    as (_ & H2).
  destruct (triggerEvent__dispatch (operator_world "AdImpression" "AdVideoStart"))
    as (_ & H3).
  destruct (triggerEvent__dispatch (fresh blank_page)) as (H4 & _).
  split; [|split; [|split]].
  - edestruct H1 as (_ & _ & _ & _ & H); [vm_compute; reflexivity|].
    unfold exec. rewrite H; [vm_compute; reflexivity|].
    rewrite !not_elem_of_cons.
    repeat split; try (intros Heq; vm_compute in Heq; discriminate Heq).
    apply not_elem_of_nil.
  - edestruct H2 as (_ & H & _); [vm_compute; reflexivity|].
    unfold exec. rewrite H; vm_compute; reflexivity.
  - edestruct H3 as (_ & _ & _ & _ & H); [vm_compute; reflexivity|].
    rewrite H; [vm_compute; reflexivity|].
    rewrite !not_elem_of_cons.
    repeat split; try (intros Heq; vm_compute in Heq; discriminate Heq).
    apply not_elem_of_nil.
  - apply H4. vm_compute. reflexivity.
Defined.

Ltac element_steps :=
  repeat (erewrite element_at_update
            by (rewrite ?resolve_page_update; eassumption);
          first [ rewrite decide_True by reflexivity
                | rewrite decide_False by first [discriminate | assumption] ]).

(** X14.  [eventSelected_], on a page with the four option panels and the
    dropdown, returns and leaves exactly the panel of the selected event
    displayed ["inline"], the other panels ["none"]; when the selected event
    has no panel, all four are ["none"].  No other element, nothing in the
    unit and no call is made.  When a panel is missing it throws a
    [TypeError]. *)
Theorem eventSelected__shows_one_panel (w : World) :
  let w' := exec eventSelected_ w in
  (ad w' = ad w ∧ calls w' = calls w) ∧
  (Exists (λ panel, element_at panel.1 (page w) = None) option_panels →
   outcome eventSelected_ w = Thrown TypeError) ∧
  (∀ el,
     element_at "eventSelect" (page w) = Some el →
     Forall (λ panel, is_Some (element_at panel.1 (page w))) option_panels →
     outcome eventSelected_ w = Returned tt ∧
     (∀ panel, panel ∈ option_panels →
        display <$> element_at panel.1 (page w') =
        Some (if String.eqb (value el) panel.2 then "inline" else "none")) ∧
     (∀ key, key ∉ option_panels.*1 →
        element_at key (page w') = element_at key (page w))).
Proof.
  cbv zeta. split; [|split].
  - split.
    + apply (preserves_eventSelected_ (λ a _, a = ad w) w). reflexivity.
    + apply (preserves_eventSelected_ (λ _ c, c = calls w) w). reflexivity.
  - intros Hex. unfold outcome, eventSelected_.
    rewrite !bind_getElement_.
    unfold option_panels in Hex. rewrite !Exists_cons, Exists_nil in Hex.
    cbn [fst] in Hex.
    destruct (resolve "AdClickThruOptions" (page w)) as [r1|] eqn:H1;
      [rewrite bind_on_element_found | reflexivity].
    destruct (resolve "AdErrorOptions" (page w)) as [r2|] eqn:H2;
      [rewrite bind_on_element_found | reflexivity].
    destruct (resolve "AdLogOptions" (page w)) as [r3|] eqn:H3;
      [rewrite bind_on_element_found | reflexivity].
    destruct (resolve "AdInteractionOptions" (page w)) as [r4|] eqn:H4;
      [|reflexivity].
    destruct Hex as [H|[H|[H|[H|[]]]]]; apply element_at_missing in H;
      congruence.
  - intros el Hel Hall.
    unfold option_panels in Hall.
    rewrite !Forall_cons in Hall. cbn [fst] in Hall.
    destruct Hall as (P1 & P2 & P3 & P4 & _).
    destruct P1 as [e1 E1], P2 as [e2 E2], P3 as [e3 E3], P4 as [e4 E4].
    destruct (element_at_lookup _ _ _ E1) as (r1 & H1 & _).
    destruct (element_at_lookup _ _ _ E2) as (r2 & H2 & _).
    destruct (element_at_lookup _ _ _ E3) as (r3 & H3 & _).
    destruct (element_at_lookup _ _ _ E4) as (r4 & H4 & _).
    pose proof Hel as Hel0.
    apply element_at_lookup in Hel as (r5 & H5 & _).
    unfold outcome, exec, eventSelected_.
    rewrite !bind_getElement_, H1, H2, H3, H4.
    rewrite !bind_on_element_found. cbn [ad page calls].
    rewrite bind_getElement_. cbn [page].
    rewrite !resolve_page_update, H5, bind_value_of_found. cbn [page].
    match goal with |- context [page_lookup r5 ?p4] =>
      assert (page_lookup r5 p4 = Some el) as Hl end.
    { match goal with |- page_lookup r5 ?p4 = _ =>
        assert (element_at "eventSelect" p4 = Some el) as Hel4
          by (element_steps; exact Hel0);
        unfold element_at in Hel4;
        rewrite !resolve_page_update, H5 in Hel4; exact Hel4 end. }
    rewrite Hl. change (default "" (value <$> Some el)) with (value el).
    clear Hl.
    destruct (String.eqb (value el) "AdClickThru") eqn:V1;
      [|destruct (String.eqb (value el) "AdError") eqn:V2;
        [|destruct (String.eqb (value el) "AdLog") eqn:V3;
          [|destruct (String.eqb (value el) "AdInteraction") eqn:V4]]];
      try match goal with
          | V : String.eqb (value el) _ = true |- _ =>
              apply String.eqb_eq in V; rewrite V in *
          end;
      (split; [reflexivity|]); cbn [on_element modify_page ret snd page];
      (split;
       [ intros panel Hin; unfold option_panels in Hin;
         rewrite !elem_of_cons, elem_of_nil in Hin;
         destruct Hin as [->|[->|[->|[->|[]]]]]; cbn [fst snd];
         element_steps;
         rewrite ?E1, ?E2, ?E3, ?E4, ?V1, ?V2, ?V3, ?V4; reflexivity
       | intros key Hkey; unfold option_panels in Hkey;
         cbn [fmap list_fmap fst] in Hkey;
         rewrite !not_elem_of_cons in Hkey;
         destruct Hkey as (K1 & K2 & K3 & K4 & _);
         element_steps; reflexivity ]).
Qed.

Lemma eventSelected__shows_one_panel_witness :
  display <$> element_at "AdErrorOptions"
                (page (exec eventSelected_ (fresh (operator_page "AdError")))) =
    Some "inline" ∧
  display <$> element_at "AdLogOptions"
                (page (exec eventSelected_ (fresh (operator_page "AdError")))) =
    Some "none" ∧
  outcome eventSelected_ (fresh half_wired_page) = Thrown TypeError.
Proof.
  destruct (eventSelected__shows_one_panel (fresh (operator_page "AdError")))
    as (_ & _ & H1).
  destruct (eventSelected__shows_one_panel (fresh half_wired_page))
    as (_ & H2 & _).
  edestruct H1 as (_ & H1' & _).
  { vm_compute. reflexivity. }
  { repeat constructor; vm_compute; eexists; reflexivity. }
  split; [|split].
  - assert (("AdErrorOptions", "AdError") ∈ option_panels) as Hin
      by (unfold option_panels; right; left).
    apply H1' in Hin. cbn [fst snd] in Hin. rewrite Hin. vm_compute. reflexivity.
  - assert (("AdLogOptions", "AdLog") ∈ option_panels) as Hin
      by (unfold option_panels; do 2 right; left).
    apply H1' in Hin. cbn [fst snd] in Hin. rewrite Hin. vm_compute. reflexivity.
  - apply H2. apply Exists_cons_hd. vm_compute. reflexivity.
Defined.

(** ** Every call: what it throws, what it calls, what it writes *)

Lemma only_TypeError_js_bind cb ctx : only_TypeError (js_bind cb ctx).
Proof.
  destruct cb; intros w e H;
    first [discriminate H | injection H as <-; reflexivity].
Qed.

Lemma never_throws_subscribed_in name : never_throws (subscribed_in name).
Proof. intros w. eexists. reflexivity. Qed.

Lemma never_throws_isEventSubscribed_ name : never_throws (isEventSubscribed_ name).
Proof. intros w. eexists. reflexivity. Qed.

#[global] Hint Resolve only_TypeError_js_bind never_throws_subscribed_in
  never_throws_isEventSubscribed_ : throws.

Lemma only_TypeError_interactive_handlers :
  only_TypeError adClickThruHandler_ ∧ only_TypeError adErrorHandler_ ∧
  only_TypeError adLogHandler_ ∧ only_TypeError adInteractionHandler_.
Proof.
  unfold adClickThruHandler_, adErrorHandler_, adLogHandler_,
    adInteractionHandler_.
  repeat split; throws_tac.
Qed.

Lemma only_TypeError_initAd_rest :
  only_TypeError
    (addButtonListeners_ ;; fillProperties_ ;;
     call_callback "AdLoaded" [] ;; setupScrollListener_).
Proof. throws_tac. Qed.

(** What [initAd] throws: the [HierarchyRequestError] of a refused body, and
    a [TypeError] otherwise. *)
Lemma initAd_thrown width height viewMode desiredBitrate creativeData
    environmentVars w e :
  outcome (initAd width height viewMode desiredBitrate creativeData
             environmentVars) w = Thrown e →
  e = if initAd_refused environmentVars (page w)
      then HierarchyRequestError else TypeError.
Proof.
  destruct environmentVars as [o|]; [|intros [= <-]; reflexivity].
  unfold outcome. rewrite initAd_unfold, bind_renderSlot_, initAd_stored_refused.
  cbn [initAd_refused]. destruct (body_refused (slot o) (page w)).
  - intros [= <-]. reflexivity.
  - apply only_TypeError_initAd_rest.
Qed.

Lemma initAd_refused_thrown width height viewMode desiredBitrate creativeData
    environmentVars w :
  initAd_refused environmentVars (page w) = true →
  outcome (initAd width height viewMode desiredBitrate creativeData
             environmentVars) w = Thrown HierarchyRequestError.
Proof.
  destruct environmentVars as [o|]; [|discriminate]. cbn [initAd_refused].
  intros H. unfold outcome.
  rewrite initAd_unfold, bind_renderSlot_, initAd_stored_refused, H.
  reflexivity.
Qed.

Lemma void_spec (m : M unit) w :
  void m w =
  match m w with
  | (Returned _, w') => (Returned JUndefined, w')
  | (Thrown e, w') => (Thrown e, w')
  end.
Proof. unfold void, bind. destruct (m w) as [[[]|e] w']; reflexivity. Qed.

Lemma void_thrown (m : M unit) w e :
  outcome (void m) w = Thrown e → outcome m w = Thrown e.
Proof.
  unfold outcome. rewrite void_spec.
  destruct (m w) as [[[]|e'] w']; [discriminate | intros [= <-]; reflexivity].
Qed.

Lemma perform_thrown op w e :
  outcome (perform op) w = Thrown e →
  e = if refused op (page w) then HierarchyRequestError else TypeError.
Proof.
  destruct only_TypeError_interactive_handlers as (H1 & H2 & H3 & H4).
  destruct op; cbn [refused];
    [ intros H; apply void_thrown in H; exact (initAd_thrown _ _ _ _ _ _ _ _ H)
    | revert w e;
      match goal with
      | |- ∀ w e, outcome ?m w = Thrown e → e = TypeError =>
          change (only_TypeError m)
      end .. ];
    unfold perform, void;
    unfold handshakeVersion, startAd, stopAd, setAdVolume,
      getAdVolume, resizeAd, pauseAd, resumeAd, expandAd, getAdExpanded,
      getAdSkippableState, collapseAd, skipAd, subscribe, unsubscribe,
      getAdWidth, getAdHeight, getAdRemainingTime, getAdDuration,
      getAdCompanions, getAdIcons, getAdLinear, triggerEvent_, eventSelected_;
    throws_tac; assumption.
Qed.

Lemma never_throws_perform op : cannot_throw op = true → never_throws (perform op).
Proof.
  destruct op; try discriminate; intros Hop; unfold perform, void;
    unfold handshakeVersion, getAdVolume, getAdExpanded,
      getAdSkippableState, collapseAd, subscribe, unsubscribe,
      getAdWidth, getAdHeight, getAdRemainingTime, getAdDuration,
      getAdCompanions, getAdIcons, getAdLinear;
    throws_tac.
  destruct aCallback; try discriminate. unfold js_bind. throws_tac.
Qed.

(** X15.  Of the exceptions the unit's own code raises, the host sees only
    two.  A call throws a [HierarchyRequestError] exactly when it is an
    [initAd] that must create the body of a document with neither body nor
    root element (it has its [environmentVars], the slot given is not a
    [DIV]); every other exception that leaves a call, on whatever page, is a
    [TypeError].  The security errors of a cross-origin parent are all
    caught inside.  The getters, [handshakeVersion], [collapseAd], [log],
    [unsubscribe], and [subscribe] of a function never throw at all.  (Host
    functions are taken to return, as everywhere in this embedding.) *)
Theorem calls_throw_TypeError_unless_refused (op : Op) (w : World) :
  (∀ e, outcome (perform op) w = Thrown e →
     e = if refused op (page w) then HierarchyRequestError else TypeError) ∧
  (refused op (page w) = true →
     outcome (perform op) w = Thrown HierarchyRequestError) ∧
  (cannot_throw op = true → ∃ v, outcome (perform op) w = Returned v).
Proof.
  split; [|split].
  - intros e. apply perform_thrown.
  - destruct op; try discriminate. cbn [refused perform]. intros H.
    unfold outcome. rewrite void_spec.
    pose proof (initAd_refused_thrown width height viewMode desiredBitrate
                  creativeData environmentVars w H) as E.
    unfold outcome in E.
    destruct (initAd _ _ _ _ _ _ w) as [[[]|e] w']; [discriminate|].
    injection E as ->. reflexivity.
  - intros Hop. apply never_throws_perform, Hop.
Qed.

Lemma calls_throw_TypeError_unless_refused_witness :
  (∀ e, outcome (perform TriggerEvent_) sandboxed = Thrown e → e = TypeError) ∧
  (∃ v, outcome (perform (Unsubscribe "AdLoaded")) sandboxed = Returned v) ∧
  outcome (perform (InitAd (JNum 300) (JNum 250) (JStr "normal") (JNum 256)
                      (JObj 0) (Some scenario_env))) uprooted =
    Thrown HierarchyRequestError.
Proof.
  destruct (calls_throw_TypeError_unless_refused TriggerEvent_ sandboxed)
    as (H1 & _).
  destruct (calls_throw_TypeError_unless_refused (Unsubscribe "AdLoaded")
              sandboxed) as (_ & _ & H2).
  destruct (calls_throw_TypeError_unless_refused
              (InitAd (JNum 300) (JNum 250) (JStr "normal") (JNum 256)
                 (JObj 0) (Some scenario_env)) uprooted) as (_ & H3 & _).
  split; [exact H1|]. split; [apply H2; reflexivity | apply H3; reflexivity].
Defined.

(** Proving [preserves P m] by the structure of [m]. *)
Ltac keeps_step :=
  lazymatch goal with
  | |- preserves _ (bind _ _) => apply preserves_bind; [|intros]
  | |- preserves _ (try_catch _ _) => apply preserves_try_catch
  | |- preserves _ (if ?b then _ else _) => destruct b
  | |- preserves _ (match ?x with _ => _ end) => destruct x
  | |- preserves _ (modify_ad _) => apply preserves_modify_ad; intros
  | |- preserves _ (call_callback _ _) => apply preserves_call_callback; intros
  | |- preserves _ renderSlot_ => apply preserves_renderSlot_; intros
  | |- preserves _ _ =>
      solve [auto using preserves_ret, preserves_throw, preserves_get_ad,
               preserves_get_page, preserves_modify_page,
               preserves_getElement_, preserves_log, preserves_on_element,
               preserves_value_of, preserves_subscribed_in,
               preserves_isEventSubscribed_, preserves_js_bind,
               preserves_property_of,
               preserves_setupScrollListener_, preserves_addButtonListeners_,
               preserves_fillProperties_, preserves_eventSelected_]
  end.

Ltac keeps_tac := cbv zeta; repeat keeps_step.

Ltac unfold_methods :=
  unfold perform, void;
  unfold initAd, handshakeVersion, startAd, stopAd, setAdVolume,
    getAdVolume, resizeAd, pauseAd, resumeAd, expandAd, getAdExpanded,
    getAdSkippableState, collapseAd, skipAd, subscribe, unsubscribe,
    getAdWidth, getAdHeight, getAdRemainingTime, getAdDuration,
    getAdCompanions, getAdIcons, getAdLinear, triggerEvent_,
    adClickThruHandler_, adErrorHandler_, adLogHandler_, adInteractionHandler_.

Lemma mute_intro {A} (m : M A) :
  (∀ C, preserves (λ _ c, c = C) m) → mute m.
Proof. intros H w. apply (H (calls w) w). reflexivity. Qed.

Lemma quiet_intro {A} (m : M A) :
  (∀ R C, preserves (λ a c, c = C ∧ eventCallbacks_ a = R) m) → quiet m.
Proof.
  intros H w. apply (H (eventCallbacks_ (ad w)) (calls w) w).
  split; reflexivity.
Qed.

Ltac mute_tac := apply mute_intro; intros; keeps_tac; assumption.
Ltac quiet_tac := apply quiet_intro; intros; keeps_tac; assumption.

Lemma calls_at_most_one_mute {A} (m : M A) : mute m → calls_at_most_one m.
Proof. intros H w. left. apply H. Qed.

Lemma calls_at_most_one_call_callback name args :
  calls_at_most_one (call_callback name args).
Proof.
  intros w. unfold exec. rewrite call_callback_spec.
  destruct (eventCallbacks_ (ad w) !! name) as [[|f this]|] eqn:E;
    [left; reflexivity | | left; reflexivity].
  right. exists name, f, this, args. split; [exact E | reflexivity].
Qed.

Lemma calls_at_most_one_after_quiet {A B} (m : M A) (k : A → M B) :
  quiet m → (∀ a, calls_at_most_one (k a)) → calls_at_most_one (bind m k).
Proof.
  intros Hm Hk w. destruct (Hm w) as (Hc & Hr). unfold exec, bind in *.
  destruct (m w) as [[a|e] w1]; simpl in *; [|left; exact Hc].
  destruct (Hk a w1) as [H|(name & f & this & args & Hcb & H)].
  - left. unfold exec in H. congruence.
  - right. exists name, f, this, args. unfold exec in H.
    split; congruence.
Qed.

Lemma calls_at_most_one_then_mute {A B} (m : M A) (k : A → M B) :
  calls_at_most_one m → (∀ a, mute (k a)) → calls_at_most_one (bind m k).
Proof.
  intros Hm Hk w. specialize (Hm w). unfold exec, bind in *.
  destruct (m w) as [[a|e] w1]; simpl in *; [|exact Hm].
  pose proof (Hk a w1) as H. unfold exec in H. rewrite H. exact Hm.
Qed.

Ltac at_most_one_step :=
  lazymatch goal with
  | |- calls_at_most_one (bind _ _) =>
      first [ apply calls_at_most_one_after_quiet; [solve [quiet_tac] | intros]
            | apply calls_at_most_one_then_mute; [|intros; solve [mute_tac]] ]
  | |- calls_at_most_one (if ?b then _ else _) => destruct b
  | |- calls_at_most_one (match ?x with _ => _ end) => destruct x
  | |- calls_at_most_one (call_callback _ _) =>
      apply calls_at_most_one_call_callback
  | |- calls_at_most_one _ => apply calls_at_most_one_mute; solve [mute_tac]
  end.

Lemma calls_at_most_one_perform op : calls_at_most_one (perform op).
Proof.
  destruct op; unfold_methods; cbv zeta; repeat at_most_one_step.
Qed.

(** X16.  A call makes at most one call of a host function, and only of a
    function that was stored in [eventCallbacks_] when the call started, with
    the [this] it was bound to; the calls made before are kept, in order.
    This holds whether the call returns or throws. *)
Theorem calls_at_most_one_subscriber (op : Op) (w : World) :
  calls (exec (perform op) w) = calls w ∨
  ∃ name f this args,
    eventCallbacks_ (ad w) !! name = Some (CbBound f this) ∧
    calls (exec (perform op) w) = calls w ++ [Invoke f this args].
Proof. apply calls_at_most_one_perform. Qed.

Lemma read_only_keeps_unit op :
  read_only op = true → ∀ A, preserves (λ a _, a = A) (perform op).
Proof.
  intros Hop A.
  destruct op; try discriminate; unfold_methods; keeps_tac; assumption.
Qed.

(** X17.  Only [initAd], the four writers of attributes ([setAdVolume],
    [resizeAd], [expandAd], [collapseAd]), [subscribe] and [unsubscribe]
    change the unit.  Every other call, the operator's two listeners
    included, leaves the slot, the video slot, the registry and all
    attributes exactly as they were, whether it returns or throws. *)
Theorem read_only_calls_keep_the_unit (op : Op) (w : World) :
  read_only op = true → ad (exec (perform op) w) = ad w.
Proof.
  intros Hop. apply (read_only_keeps_unit op Hop (ad w) w). reflexivity.
Qed.

Lemma read_only_calls_keep_the_unit_witness :
  ad (exec (perform TriggerEvent_) (operator_world "AdError" "AdError")) =
    ad (operator_world "AdError" "AdError") ∧
  ad (exec (perform StartAd) sandboxed) = getVPAIDAd.
Proof.
  split.
  - apply read_only_calls_keep_the_unit. reflexivity.
  - apply (read_only_calls_keep_the_unit StartAd sandboxed). reflexivity.
Defined.

(** An attribute no method writes keeps the value the constructor gave
    it. *)
Lemma unwritten_attribute_constant key w :
  key ∉ written_keys → reachable w →
  attr_read key (attributes_ (ad w)) = attr_read key (attributes_ getVPAIDAd).
Proof.
  intros Hkey Hw.
  apply (reachable_invariant
           (λ a _, attr_read key (attributes_ a) =
                   attr_read key (attributes_ getVPAIDAd))); auto.
  intros key' v a _ Hin Ha. simpl. rewrite attr_read_set_ne; [exact Ha|].
  apply String.eqb_neq. intros ->. exact (Hkey Hin).
Qed.

(** X18.  The attributes without a writer never change: in every reachable
    world [getAdDuration()] returns 30, [getAdRemainingTime()] 10,
    [getAdCompanions()] and [getAdIcons()] the empty string,
    [getAdLinear()] [true] and [getAdSkippableState()] [false], and none of
    these getters throws. *)
Theorem unwritten_attributes_stay (w : World) :
  reachable w →
  outcome getAdDuration w = Returned (JNum 30) ∧
  outcome getAdRemainingTime w = Returned (JNum 10) ∧
  outcome getAdCompanions w = Returned (JStr "") ∧
  outcome getAdIcons w = Returned (JStr "") ∧
  outcome getAdLinear w = Returned (JBool true) ∧
  outcome getAdSkippableState w = Returned (JBool false).
Proof.
  intros Hw.
  assert (∀ key, key ∉ written_keys →
            attr_read key (attributes_ (ad w)) =
            attr_read key (attributes_ getVPAIDAd)) as H
    by (intros key Hkey; apply unwritten_attribute_constant; assumption).
  assert (∀ key, String.eqb "width" key = false →
                 String.eqb "height" key = false →
                 String.eqb "viewMode" key = false →
                 String.eqb "desiredBitrate" key = false →
                 String.eqb "volume" key = false →
                 String.eqb "expanded" key = false →
                 key ∉ written_keys) as Hnot.
  { intros key E1 E2 E3 E4 E5 E6. unfold written_keys.
    rewrite !not_elem_of_cons. repeat split; try apply not_elem_of_nil;
      intros ->; rewrite String.eqb_refl in *; discriminate. }
  unfold outcome, getAdDuration, getAdRemainingTime, getAdCompanions,
    getAdIcons, getAdLinear, getAdSkippableState.
  rewrite bind_log. unfold bind, get_ad, ret. cbn [fst ad logged].
  rewrite !H by (apply Hnot; reflexivity).
  repeat split.
Qed.

Lemma unwritten_attributes_stay_witness :
  outcome getAdDuration busy = Returned (JNum 30) ∧
  outcome getAdLinear busy = Returned (JBool true).
Proof.
  destruct (unwritten_attributes_stay busy) as (H1 & _ & _ & _ & H2 & _).
  { do 3 apply reachable_call. apply reachable_fresh. }
  split; [exact H1 | exact H2].
Defined.

(** The unit after each writer, whatever its outcome. *)
Lemma writers_spec w :
  (∀ v, ad (exec (setAdVolume v) w) = with_attribute "volume" v (ad w)) ∧
  (∀ width height viewMode,
     ad (exec (resizeAd width height viewMode) w) =
     with_attribute "viewMode" viewMode
       (with_attribute "height" height
          (with_attribute "width" width (ad w)))) ∧
  ad (exec expandAd w) = with_attribute "expanded" (JBool true) (ad w) ∧
  ad (exec collapseAd w) = with_attribute "expanded" (JBool false) (ad w).
Proof.
  unfold exec, setAdVolume, resizeAd, expandAd, collapseAd.
  repeat split; intros; js_steps; try reflexivity;
    rewrite guarded_call_spec; cbn [ad];
    match goal with
    | |- context [eventCallbacks_ ?a !! ?name] =>
        destruct (eventCallbacks_ a !! name) as [[|f this]|] eqn:E;
        cbn [eventCallbacks_ with_attribute] in E |- *; rewrite ?E; reflexivity
    end.
Qed.

(** X19.  [resizeAd(w, h, mode)] stores the three values even when the
    size-change call throws: afterwards [getAdWidth()] and [getAdHeight()]
    return [w] and [h] and [viewMode] is [mode]; every other attribute reads
    as before and the registry is untouched.  Likewise [expandAd()] leaves
    [getAdExpanded()] returning [true] and [collapseAd()] leaves it returning
    [false], whatever is subscribed. *)
Theorem writers_store_whatever_the_outcome (w : World) :
  (∀ width height viewMode,
     let w' := exec (resizeAd width height viewMode) w in
     outcome getAdWidth w' = Returned width ∧
     outcome getAdHeight w' = Returned height ∧
     attr_read "viewMode" (attributes_ (ad w')) = viewMode ∧
     eventCallbacks_ (ad w') = eventCallbacks_ (ad w) ∧
     (∀ key, key ∉ ["width"; "height"; "viewMode"] →
        attr_read key (attributes_ (ad w')) =
        attr_read key (attributes_ (ad w)))) ∧
  (outcome getAdExpanded (exec expandAd w) = Returned (JBool true) ∧
   outcome getAdExpanded (exec collapseAd w) = Returned (JBool false) ∧
   ∀ key, key ≠ "expanded" →
     attr_read key (attributes_ (ad (exec expandAd w))) =
       attr_read key (attributes_ (ad w)) ∧
     attr_read key (attributes_ (ad (exec collapseAd w))) =
       attr_read key (attributes_ (ad w))).
Proof.
  destruct (writers_spec w) as (_ & Hresize & Hexpand & Hcollapse).
  split.
  - intros width height viewMode. cbv zeta.
    unfold outcome, getAdWidth, getAdHeight, bind, get_ad, ret. cbn [fst].
    rewrite Hresize. cbn [attributes_ with_attribute eventCallbacks_].
    split; [|split; [|split; [|split]]].
    + rewrite !attr_read_set_ne, attr_read_set_eq by reflexivity. reflexivity.
    + rewrite attr_read_set_ne, attr_read_set_eq by reflexivity. reflexivity.
    + apply attr_read_set_eq.
    + reflexivity.
    + intros key Hkey. rewrite !not_elem_of_cons in Hkey.
      destruct Hkey as (K1 & K2 & K3 & _).
      rewrite !attr_read_set_ne; [reflexivity | ..];
        apply String.eqb_neq; congruence.
  - unfold outcome, getAdExpanded. rewrite !bind_log.
    unfold bind, get_ad, ret. cbn [fst ad logged].
    rewrite Hexpand, Hcollapse. cbn [attributes_ with_attribute].
    rewrite !attr_read_set_eq. split; [reflexivity|]. split; [reflexivity|].
    intros key Hkey.
    rewrite !attr_read_set_ne by (apply String.eqb_neq; congruence).
    split; reflexivity.
Qed.

Lemma writers_store_whatever_the_outcome_witness :
  outcome (resizeAd (JNum 640) (JNum 360) (JStr "fullscreen"))
    resize_unsubscribed = Thrown TypeError ∧
  attr_read "volume"
    (attributes_
       (ad (exec (resizeAd (JNum 640) (JNum 360) (JStr "fullscreen"))
              resize_unsubscribed))) = JNum 50 ∧
  attr_read "volume" (attributes_ (ad (exec expandAd resize_unsubscribed))) =
    JNum 50.
Proof.
  destruct (writers_store_whatever_the_outcome resize_unsubscribed)
    as (H1 & _ & _ & H2).
  destruct (H1 (JNum 640) (JNum 360) (JStr "fullscreen"))
    as (_ & _ & _ & _ & H1').
  split; [vm_compute; reflexivity|]. split.
  - rewrite H1'; [vm_compute; reflexivity|].
    rewrite !not_elem_of_cons. repeat split; try discriminate.
    apply not_elem_of_nil.
  - destruct (H2 "volume") as (H2' & _); [discriminate|].
    rewrite H2'. vm_compute. reflexivity.
Defined.





(** X21.  [setAdVolume], [resizeAd], [pauseAd], [resumeAd] and [expandAd]
    each look at the entry stored under the event they emit: a subscribed
    function is called exactly once, with no argument, and the call
    returns; with no entry the call returns and calls nothing; with the
    [null] left by [unsubscribe] it throws a [TypeError] and calls
    nothing. *)
Theorem guarded_emitters (op : Op) (name : string) (w : World) :
  emitted_name op = Some name →
  match eventCallbacks_ (ad w) !! name with
  | Some (CbBound f this) =>
      outcome (perform op) w = Returned JUndefined ∧
      calls (exec (perform op) w) = calls w ++ [Invoke f this []]
  | Some CbNull =>
      outcome (perform op) w = Thrown TypeError ∧
      calls (exec (perform op) w) = calls w
  | None =>
      outcome (perform op) w = Returned JUndefined ∧
      calls (exec (perform op) w) = calls w
  end.
Proof.
  intros Hop.
  destruct op; try discriminate; injection Hop as <-;
    unfold outcome, exec, perform; rewrite void_spec;
    unfold setAdVolume, resizeAd, pauseAd, resumeAd, expandAd;
    js_steps; rewrite guarded_call_spec; simpl;
    destruct (eventCallbacks_ (ad w) !! _) as [[|f this]|];
    split; reflexivity.
Qed.

Lemma guarded_emitters_witness :
  calls (exec (perform (SetAdVolume (JNum 10))) volume_listener) =
    [Invoke recorder JNull []] ∧
  outcome (perform (ResizeAd (JNum 1) (JNum 1) (JStr "normal")))
    resize_unsubscribed = Thrown TypeError ∧
  calls (exec (perform ResumeAd) volume_listener) = [].
Proof.
  pose proof (guarded_emitters (SetAdVolume (JNum 10)) "AdVolumeChange"
                volume_listener eq_refl) as H1.
  pose proof (guarded_emitters (ResizeAd (JNum 1) (JNum 1) (JStr "normal"))
                "AdSizeChange" resize_unsubscribed eq_refl) as H2.
  pose proof (guarded_emitters ResumeAd "AdResumed" volume_listener eq_refl)
    as H3.
  assert (eventCallbacks_ (ad volume_listener) !! "AdVolumeChange" =
          Some (CbBound recorder JNull)) as E1 by (vm_compute; reflexivity).
  assert (eventCallbacks_ (ad resize_unsubscribed) !! "AdSizeChange" =
          Some CbNull) as E2 by (vm_compute; reflexivity).
  assert (eventCallbacks_ (ad volume_listener) !! "AdResumed" = None) as E3
    by (vm_compute; reflexivity).
  rewrite E1 in H1. rewrite E2 in H2. rewrite E3 in H3.
  destruct H1 as (_ & H1), H2 as (H2 & _), H3 as (_ & H3).
  split; [rewrite H1; vm_compute; reflexivity|].
  split; [exact H2 | rewrite H3; vm_compute; reflexivity].
Defined.

(** ** [initAd], end to end *)

Lemma element_at_ext key p p' :
  document p' = document p → parent p' = parent p →
  element_at key p' = element_at key p.
Proof.
  intros Hd Hp. unfold element_at. rewrite (resolve_ext key p p' Hd Hp).
  destruct (resolve key p) as [[id|id]|]; simpl; rewrite ?Hd, ?Hp; reflexivity.
Qed.

Lemma setupScrollListener__frame w :
  ∃ w', setupScrollListener_ w = (Returned tt, w') ∧
        document (page w') = document (page w) ∧
        parent (page w') = parent (page w) ∧
        ad w' = ad w ∧ calls w' = calls w.
Proof.
  unfold setupScrollListener_, try_catch, parent_addEventListener, bind,
    get_page, modify_page, throw, ret.
  simpl. destruct (parent (page w)) eqn:E; simpl; eexists; repeat split;
    simpl; rewrite ?E; reflexivity.
Qed.

Lemma bind_returned {A B} (m : M A) (k : A → M B) w a w' :
  m w = (Returned a, w') → bind m k w = k a w'.
Proof. intros E. unfold bind. rewrite E. reflexivity. Qed.

(** X22.  When [initAd] succeeds (its [environmentVars] given, a function
    under ["AdLoaded"], the two controls and one element per attribute on
    the page, a document that takes the slot), it leaves the page showing
    the unit: the element of every attribute holds that attribute's
    value as text, the new width, height, view mode and bitrate included,
    and the log holds the [initAd] line with the four arguments. *)
Theorem initAd_shows_the_attributes
    (width height viewMode desiredBitrate creativeData : JsVal)
    (o : EnvironmentVars) (w : World) (f : Fn) (this : JsVal) :
  eventCallbacks_ (ad w) !! "AdLoaded" = Some (CbBound f this) →
  attr_keys (attributes_ (ad w)) = attribute_keys →
  Forall (λ key, finds key w) initAd_ids →
  body_refused (slot o) (page w) = false →
  let w' := exec (initAd width height viewMode desiredBitrate creativeData
                    (Some o)) w in
  (∀ key, key ∈ attribute_keys →
     textContent <$> element_at key (page w') =
     Some (dom_string (attr_read key (attributes_ (ad w'))))) ∧
  (textContent <$> element_at "width" (page w') = Some (dom_string width) ∧
   textContent <$> element_at "height" (page w') = Some (dom_string height)) ∧
  element_at "lastVpaidEvent" (page w') =
    set_value ("initAd " +:+ js_to_string width +:+ "x" +:+
               js_to_string height +:+ " " +:+ js_to_string viewMode +:+ " "
               +:+ js_to_string desiredBitrate)
      <$> element_at "lastVpaidEvent" (page w).
Proof.
  intros Hcb Hkeys Hids Hok. cbv zeta.
  assert (∀ key, key ∈ initAd_ids → is_Some (resolve key (page w))) as Hfind.
  { intros key Hin. apply finds_resolve. rewrite Forall_forall in Hids.
    apply Hids, Hin. }
  clear Hids.
  pose proof (initAd_attributes width height viewMode desiredBitrate
                creativeData o w) as Hattrs.
  unfold exec in *. rewrite initAd_unfold in *. revert Hattrs.
  rewrite <- (initAd_stored_refused width height viewMode desiredBitrate) in Hok.
  set (message := "initAd " +:+ js_to_string width +:+ "x" +:+
                  js_to_string height +:+ " " +:+ js_to_string viewMode +:+
                  " " +:+ js_to_string desiredBitrate).
  set (w1' := initAd_stored width height viewMode desiredBitrate o w) in *.
  assert (attr_keys (attributes_ (ad w1')) = attribute_keys) as Hkeys1.
  { unfold w1'. simpl.
    repeat (apply attr_keys_set_known;
            [|unfold attribute_keys;
              repeat first [apply list_elem_of_here | apply list_elem_of_further]]).
    exact Hkeys. }
  assert (eventCallbacks_ (ad w1') = eventCallbacks_ (ad w)) as Hcb1
    by reflexivity.
  assert (page w1' = log_page message (page w)) as Hpage1 by reflexivity.
  clearbody w1'.
  destruct (renderSlot__frame w1') as (Hd2 & Hp2 & Ha2 & Hc2 & _).
  assert (renderSlot_ w1' = (Returned tt, exec renderSlot_ w1')) as E2
    by (rewrite renderSlot__run, Hok; reflexivity).
  set (w2 := exec renderSlot_ w1') in *. clearbody w2.
  rewrite (bind_returned _ _ _ _ _ E2).
  assert (∀ key, resolve key (page w2) = resolve key (page w)) as Hres2.
  { intros key. rewrite (resolve_ext key _ _ Hd2 Hp2), Hpage1.
    apply resolve_log_page. }
  assert (∀ key, element_at key (page w2) = element_at key (log_page message (page w)))
    as Hel2.
  { intros key. rewrite (element_at_ext key _ _ Hd2 Hp2), Hpage1. reflexivity. }
  destruct (Hfind "eventSelect") as [r1 H1]; [left|].
  destruct (Hfind "triggerEvent") as [r2 H2]; [right; left|].
  rewrite <- Hres2 in H1, H2.
  set (p3 := page_update r2 (addEventListener "click" triggerEvent_L)
               (page_update r1 (addEventListener "change" eventSelected_L)
                  (page w2))).
  set (w3 := {| ad := ad w2; page := p3; calls := calls w2 |}).
  assert (addButtonListeners_ w2 = (Returned tt, w3)) as E3
    by (rewrite addButtonListeners__spec, H1, H2; reflexivity).
  rewrite (bind_returned _ _ _ _ _ E3).
  assert (∀ key, resolve key p3 = resolve key (page w)) as Hres3.
  { intros key. unfold p3. rewrite !resolve_page_update. apply Hres2. }
  assert (∀ key, key ≠ "eventSelect" → key ≠ "triggerEvent" →
                 element_at key p3 = element_at key (page w2)) as Hel3.
  { intros key K1 K2. unfold p3.
    assert (resolve "triggerEvent"
              (page_update r1 (addEventListener "change" eventSelected_L)
                 (page w2)) = Some r2) as H2'
      by (rewrite resolve_page_update; exact H2).
    rewrite (element_at_update _ _ _ _ _ H2'), decide_False by exact K2.
    rewrite (element_at_update _ _ _ _ _ H1), decide_False by exact K1.
    reflexivity. }
  destruct (fillProperties_loop_spec attribute_keys w3)
    as (p4 & E4 & Hres4 & _ & Hel4).
  { intros key Hin. cbn [page w3]. rewrite Hres3. apply Hfind.
    do 2 right. exact Hin. }
  cbn [ad page calls w3] in E4, Hres4, Hel4.
  set (w4 := {| ad := ad w2; page := p4; calls := calls w2 |}) in *.
  assert (fillProperties_ w3 = (Returned tt, w4)) as E4'.
  { unfold fillProperties_. rewrite bind_get_ad. cbn [ad w3].
    rewrite Ha2, Hkeys1. exact E4. }
  rewrite (bind_returned _ _ _ _ _ E4').
  set (w5 := {| ad := ad w2; page := p4;
                calls := calls w2 ++ [Invoke f this []] |}).
  assert (call_callback "AdLoaded" [] w4 = (Returned tt, w5)) as E5.
  { rewrite call_callback_spec. cbn [ad w4]. rewrite Hc2, Hcb1, Hcb.
    reflexivity. }
  rewrite (bind_returned _ _ _ _ _ E5).
  destruct (setupScrollListener__frame w5) as (w6 & E6 & Hd6 & Hp6 & Ha6 & _).
  rewrite E6. cbn [snd page ad w5] in *. intros Hattrs.
  assert (∀ key, key ∈ attribute_keys →
            textContent <$> element_at key (page w6) =
            Some (dom_string (attr_read key (attributes_ (ad w6))))) as Hshown.
  { intros key Hin.
    rewrite (element_at_ext key _ _ Hd6 Hp6), Hel4, decide_True by exact Hin.
    rewrite Ha6.
    assert (is_Some (element_at key p3)) as [el Hel].
    { apply element_at_resolve. rewrite Hres3. apply Hfind.
      do 2 right. exact Hin. }
    rewrite Hel. reflexivity. }
  split; [exact Hshown|]. split.
  - split.
    + rewrite Hshown, Hattrs
        by (unfold attribute_keys;
            repeat first [apply list_elem_of_here | apply list_elem_of_further]).
      rewrite !attr_read_set_ne, attr_read_set_eq by reflexivity. reflexivity.
    + rewrite Hshown, Hattrs
        by (unfold attribute_keys;
            repeat first [apply list_elem_of_here | apply list_elem_of_further]).
      rewrite !attr_read_set_ne, attr_read_set_eq by reflexivity. reflexivity.
  - rewrite (element_at_ext _ _ _ Hd6 Hp6), Hel4.
    rewrite decide_False.
    2:{ unfold attribute_keys. rewrite !not_elem_of_cons.
        repeat split; try discriminate. apply not_elem_of_nil. }
    rewrite Hel3 by discriminate. rewrite Hel2.
    unfold log_page.
    destruct (resolve "lastVpaidEvent" (page w)) as [r|] eqn:Hr.
    + rewrite (element_at_update _ _ _ _ _ Hr), decide_True; reflexivity.
    + unfold element_at. rewrite Hr. reflexivity.
Qed.

Lemma initAd_shows_the_attributes_witness :
  textContent <$> element_at "width"
                    (page (exec scenario_initAd subscribed_on_control_page)) =
    Some "300" ∧
  value <$> element_at "lastVpaidEvent"
              (page (exec scenario_initAd subscribed_on_control_page)) =
    Some "initAd 300x250 normal 256".
Proof.
  destruct (initAd_shows_the_attributes (JNum 300) (JNum 250) (JStr "normal")
              (JNum 256) (JObj 0) scenario_env subscribed_on_control_page
              recorder JNull) as (_ & (H1 & _) & H2).
  - vm_compute. reflexivity.
  - reflexivity.
  - repeat constructor; eexists; vm_compute; reflexivity.
  - reflexivity.
  - split.
    + unfold scenario_initAd. rewrite H1. vm_compute. reflexivity.
    + unfold scenario_initAd. rewrite H2. vm_compute. reflexivity.
Defined.
